(** * Truely: the process bridge (Truely/ProcessBridge.c)

    A shallow embedding of the C bridge between the host operating system and
    the Swift application: process enumeration, window heuristics and the
    SHA-256 file digest, with the properties stated about them.

    Conventions.
    - C [int], [pid_t], [size_t] and [CFIndex] values are [Z]; the only cast
      that can change a value ([size_t] to [int] in [getAllProcesses]) has
      its wrap-around written out.
    - A pointer argument that the code tests against [NULL] is a [pointer].
    - The operating system (process table, libproc, window server, stdio) is
      a record of answers, one per query the code makes.
    - [CGFloat] coordinates are rationals: every finite [double] is one, and
      the code only compares them with integer constants. *)

From Stdlib Require Import ZArith List String Ascii Strings.Byte QArith Lia Bool.
From stdpp Require Import base list.
From Equations Require Import Equations.
Import ListNotations.

Local Open Scope Z_scope.

(** ** CommonCrypto's SHA-256 (CommonDigest.h)

    The bridge calls [CC_SHA256_Init], [CC_SHA256_Update] and
    [CC_SHA256_Final].  They are library code, modelled here after FIPS 180-4
    with the context CommonCrypto keeps: the running hash, the byte count and
    the bytes of the block that is not complete yet. *)
Module CommonCrypto.

Definition CC_SHA256_DIGEST_LENGTH : Z := 32.
Definition CC_SHA256_BLOCK_BYTES : nat := 64.

Definition wrap32 (x : Z) : Z := x mod 2 ^ 32.
Definition add32 (x y : Z) : Z := wrap32 (x + y).
Definition not32 (x : Z) : Z := Z.lxor x 0xffffffff.
Definition rotr (n x : Z) : Z :=
  Z.lor (Z.shiftr x n) (wrap32 (Z.shiftl x (32 - n))).

Definition Ch (x y z : Z) : Z := Z.lxor (Z.land x y) (Z.land (not32 x) z).
Definition Maj (x y z : Z) : Z :=
  Z.lxor (Z.lxor (Z.land x y) (Z.land x z)) (Z.land y z).
Definition Sigma0 (x : Z) : Z :=
  Z.lxor (Z.lxor (rotr 2 x) (rotr 13 x)) (rotr 22 x).
Definition Sigma1 (x : Z) : Z :=
  Z.lxor (Z.lxor (rotr 6 x) (rotr 11 x)) (rotr 25 x).
Definition sigma0 (x : Z) : Z :=
  Z.lxor (Z.lxor (rotr 7 x) (rotr 18 x)) (Z.shiftr x 3).
Definition sigma1 (x : Z) : Z :=
  Z.lxor (Z.lxor (rotr 17 x) (rotr 19 x)) (Z.shiftr x 10).

(** FIPS 180-4 takes its constants from the first primes: the first 32 bits
    of the fractional part of the cube root of each of the first 64 primes
    for the round constants, and of the square root of each of the first 8
    for the initial hash. *)
Definition is_prime (n : Z) : bool :=
  forallb (fun d => negb (n mod Z.of_nat d =? 0)) (seq 2 (Z.to_nat n - 2)).

Definition first_64_primes : list Z :=
  Eval vm_compute in List.filter is_prime (map Z.of_nat (seq 2 310)).

(** The largest [r'] from [r] on with [r' ^ e <= n], settled bit by bit
    from bit [k] down. *)
Fixpoint floor_root (e n : Z) (k : nat) (r : Z) : Z :=
  let larger := r + 2 ^ Z.of_nat k in
  let r' := if larger ^ e <=? n then larger else r in
  match k with
  | O => r'
  | S k' => floor_root e n k' r'
  end.

Definition fractional_root_bits (e p : Z) : Z :=
  wrap32 (floor_root e (p * 2 ^ (32 * e)) 40 0).

Definition K256 : list Z :=
  Eval vm_compute in map (fractional_root_bits 3) first_64_primes.

(** The eight working registers, also the running hash. *)
Record registers : Type := Registers {
  rA : Z; rB : Z; rC : Z; rD : Z; rE : Z; rF : Z; rG : Z; rH : Z
}.

Definition registers_of (words : list Z) : registers :=
  Registers (nth 0 words 0) (nth 1 words 0) (nth 2 words 0) (nth 3 words 0)
            (nth 4 words 0) (nth 5 words 0) (nth 6 words 0) (nth 7 words 0).

Definition H256_init : registers :=
  Eval vm_compute in
    registers_of (map (fractional_root_bits 2) (firstn 8 first_64_primes)).

(** Big-endian words of a block of bytes. *)
Fixpoint be_words (bytes : list Z) : list Z :=
  match bytes with
  | b0 :: b1 :: b2 :: b3 :: rest =>
      (b0 * 2 ^ 24 + b1 * 2 ^ 16 + b2 * 2 ^ 8 + b3) :: be_words rest
  | _ => []
  end.

Definition be_bytes32 (w : Z) : list Z :=
  [ Z.shiftr w 24 mod 256; Z.shiftr w 16 mod 256;
    Z.shiftr w 8 mod 256; w mod 256 ].

Definition be_bytes64 (w : Z) : list Z :=
  be_bytes32 (Z.shiftr w 32) ++ be_bytes32 w.

(** The message schedule: [n] more words after the ones in [w]. *)
Fixpoint schedule (n : nat) (w : list Z) : list Z :=
  match n with
  | O => w
  | S n' =>
      let t := length w in
      let at_ (k : nat) := nth (t - k) w 0 in
      schedule n'
        (w ++ [add32 (add32 (sigma1 (at_ 2%nat)) (at_ 7%nat))
                     (add32 (sigma0 (at_ 15%nat)) (at_ 16%nat))])
  end.

Definition round (r : registers) (kw : Z * Z) : registers :=
  let t1 := add32 (add32 (add32 (rH r) (Sigma1 (rE r)))
                         (add32 (Ch (rE r) (rF r) (rG r)) (fst kw)))
                  (snd kw) in
  let t2 := add32 (Sigma0 (rA r)) (Maj (rA r) (rB r) (rC r)) in
  Registers (add32 t1 t2) (rA r) (rB r) (rC r)
            (add32 (rD r) t1) (rE r) (rF r) (rG r).

Definition compress (h : registers) (block : list Z) : registers :=
  let w := schedule 48 (be_words block) in
  let r := fold_left round (combine K256 w) h in
  Registers (add32 (rA h) (rA r)) (add32 (rB h) (rB r))
            (add32 (rC h) (rC r)) (add32 (rD h) (rD r))
            (add32 (rE h) (rE r)) (add32 (rF h) (rF r))
            (add32 (rG h) (rG r)) (add32 (rH h) (rH r)).

Record CC_SHA256_CTX : Type := Ctx {
  count : Z;          (* bytes taken so far *)
  hash : registers;   (* running hash *)
  wbuf : list Z       (* bytes of the incomplete block *)
}.

(** One byte into the block buffer; a full block is compressed. *)
Definition absorb (h_buf : registers * list Z) (b : Z) : registers * list Z :=
  let buf := snd h_buf ++ [b] in
  if (length buf =? CC_SHA256_BLOCK_BYTES)%nat
  then (compress (fst h_buf) buf, [])
  else (fst h_buf, buf).

Definition byte_value (b : byte) : Z := Z.of_N (Byte.to_N b).

(** The three calls return 1, as CommonCrypto documents. *)
Definition CC_SHA256_Init : Z * CC_SHA256_CTX := (1, Ctx 0 H256_init []).

Definition CC_SHA256_Update (c : CC_SHA256_CTX) (data : list byte)
  : Z * CC_SHA256_CTX :=
  let hb := fold_left absorb (map byte_value data) (hash c, wbuf c) in
  (1, Ctx (count c + Z.of_nat (length data)) (fst hb) (snd hb)).

Definition padding (c : CC_SHA256_CTX) : list Z :=
  0x80 :: repeat 0 (Z.to_nat ((55 - count c) mod 64))
       ++ be_bytes64 ((count c * 8) mod 2 ^ 64).

Definition digest_bytes (r : registers) : list Z :=
  be_bytes32 (rA r) ++ be_bytes32 (rB r) ++ be_bytes32 (rC r)
  ++ be_bytes32 (rD r) ++ be_bytes32 (rE r) ++ be_bytes32 (rF r)
  ++ be_bytes32 (rG r) ++ be_bytes32 (rH r).

Definition CC_SHA256_Final (c : CC_SHA256_CTX) : Z * list Z :=
  let hb := fold_left absorb (padding c) (hash c, wbuf c) in
  (1, digest_bytes (fst hb)).

(** The digest of a whole message, in one call of each. *)
Definition SHA256 (message : list byte) : list Z :=
  snd (CC_SHA256_Final (snd (CC_SHA256_Update (snd CC_SHA256_Init) message))).

End CommonCrypto.

Import CommonCrypto.


(** ** ProcessBridge.h: status codes and pointers *)

Definition BRIDGE_SUCCESS : Z := 0.
Definition BRIDGE_ERROR_NULL_POINTER : Z := -1.
Definition BRIDGE_ERROR_INVALID_PARAMETER : Z := -2.
Definition BRIDGE_ERROR_MEMORY_ALLOCATION : Z := -3.
Definition BRIDGE_ERROR_SYSTEM_CALL : Z := -4.
Definition BRIDGE_ERROR_FILE_ACCESS : Z := -5.

Definition UINT32_MAX : Z := 2 ^ 32 - 1.

(** A C pointer that may be null, with what it points to. *)
Inductive pointer (A : Type) : Type :=
| NULL : pointer A
| Ptr (pointee : A) : pointer A.
Arguments NULL {A}.
Arguments Ptr {A} pointee.

(** C strings: the characters before the first NUL of a [char] buffer. *)
Definition NUL : ascii := Ascii.zero.

Fixpoint c_string (buffer : list ascii) : list ascii :=
  match buffer with
  | [] => []
  | c :: rest => if Ascii.eqb c NUL then [] else c :: c_string rest
  end.

(** ** stdio: an open stream

    [readable] holds the bytes [fread] delivers before it returns 0, and
    [read_error] is what [ferror] answers once they are consumed (false: the
    end of the file was reached). *)
Record FILE : Type := File {
  fseek_end : Z;          (* fseek(file, 0, SEEK_END) *)
  ftell_end : Z;          (* ftell(file) after it *)
  fseek_set : Z;          (* fseek(file, 0, SEEK_SET) *)
  readable : list byte;
  read_error : bool
}.

Definition fread (nmemb : nat) (file : FILE) : list byte * FILE :=
  (take nmemb (readable file),
   File (fseek_end file) (ftell_end file) (fseek_set file)
        (drop nmemb (readable file)) (read_error file)).

Definition ferror (file : FILE) : bool :=
  match readable file with [] => read_error file | _ => false end.

(** The file system as [fopen(path, "rb")] sees it. *)
Record FileSystem : Type := { fopen_rb : string -> pointer FILE }.

(** ** calculateFileSHA256 *)

Definition bufferSize : nat := 4096.

Definition inspect {A : Type} (a : A) : { b : A | a = b } := exist _ a eq_refl.

(** The read loop:
    [while ((bytesRead = fread(buffer, 1, bufferSize, file)) > 0) { ... }],
    with the size of the local buffer as an argument.  It ends with a status
    to return at once, or with the stream and the context as the loop leaves
    them. *)
Equations? read_loop (nmemb : nat) (file : FILE) (sha256Context : CC_SHA256_CTX)
  : Z + FILE * CC_SHA256_CTX by wf (length (readable file)) lt :=
  read_loop nmemb file sha256Context with inspect (fread nmemb file) := {
    | exist _ (buffer, file') Hread with inspect (0 <? Z.of_nat (length buffer)) := {
        | exist _ false _ := inr (file', sha256Context)
        | exist _ true Hpos :=
            if UINT32_MAX <? Z.of_nat (length buffer)
            then inl BRIDGE_ERROR_INVALID_PARAMETER
            else
              let (updated, sha256Context') :=
                CC_SHA256_Update sha256Context buffer in
              if updated =? 0
              then inl BRIDGE_ERROR_SYSTEM_CALL
              else read_loop nmemb file' sha256Context' } }.
Proof.
  apply Z.ltb_lt in Hpos. rewrite length_take in Hpos.
  rewrite length_drop. lia.
Qed.

Definition hex_digit (n : Z) : ascii :=
  if n <? 10 then ascii_of_nat (Z.to_nat (48 + n))
  else ascii_of_nat (Z.to_nat (87 + n)).

(** [snprintf(dst, 3, "%02x", b)] for an [unsigned char] b: the characters
    stored (two digits and the terminator) and the value returned. *)
Definition snprintf_02x (b : Z) : Z * list ascii :=
  (2, [hex_digit (b / 16); hex_digit (b mod 16); NUL]).

(** [memcpy]-like store of [chars] at offset [at_] of a buffer. *)
Fixpoint store (at_ : nat) (chars : list ascii) (buffer : list ascii)
  : list ascii :=
  match chars with
  | [] => buffer
  | c :: rest => store (S at_) rest (<[at_ := c]> buffer)
  end.

(** The conversion loop, from index [i] on: the status it ends with
    ([BRIDGE_SUCCESS] when it runs to its end) and the buffer as it leaves
    it, with what was written before a failure. *)
Fixpoint hex_loop (hash : list Z) (i : nat) (hashString : list ascii)
  : Z * list ascii :=
  match hash with
  | [] => (BRIDGE_SUCCESS, hashString)
  | b :: rest =>
      let (written, chars) := snprintf_02x b in
      let hashString := store (i * 2) chars hashString in
      if negb (written =? 2)
      then (BRIDGE_ERROR_SYSTEM_CALL, hashString)
      else hex_loop rest (S i) hashString
  end.

Definition calculateFileSHA256 (fs : FileSystem) (filePath : pointer string)
    (hashString : pointer (list ascii)) (hashStringSize : Z)
  : Z * pointer (list ascii) :=
  match filePath, hashString with
  | NULL, _ | _, NULL => (BRIDGE_ERROR_NULL_POINTER, hashString)
  | Ptr path, Ptr out =>
      if hashStringSize <? 65 then (BRIDGE_ERROR_INVALID_PARAMETER, hashString)
      else if (String.length path =? 0)%nat
      then (BRIDGE_ERROR_INVALID_PARAMETER, hashString)
      else
        match fopen_rb fs path with
        | NULL => (BRIDGE_ERROR_FILE_ACCESS, hashString)
        | Ptr file =>
            if negb (fseek_end file =? 0)
            then (BRIDGE_ERROR_FILE_ACCESS, hashString)
            else if ftell_end file <? 0
            then (BRIDGE_ERROR_FILE_ACCESS, hashString)
            else if negb (fseek_set file =? 0)
            then (BRIDGE_ERROR_FILE_ACCESS, hashString)
            else
              let (initialised, sha256Context) := CC_SHA256_Init in
              if initialised =? 0
              then (BRIDGE_ERROR_SYSTEM_CALL, hashString)
              else
                match read_loop bufferSize file sha256Context with
                | inl status => (status, hashString)
                | inr (file', sha256Context') =>
                    if ferror file'
                    then (BRIDGE_ERROR_FILE_ACCESS, hashString)
                    else
                      let (finished, hash) := CC_SHA256_Final sha256Context' in
                      if finished =? 0
                      then (BRIDGE_ERROR_SYSTEM_CALL, hashString)
                      else
                        let (converted, out') := hex_loop hash 0 out in
                        if negb (converted =? BRIDGE_SUCCESS)
                        then (converted, Ptr out')
                        else
                          (BRIDGE_SUCCESS,
                           Ptr (<[Z.to_nat (CC_SHA256_DIGEST_LENGTH * 2) := NUL]> out'))
                end
        end
  end.

(** ** CoreGraphics: the window list

    A window is the dictionary [CGWindowListCopyWindowInfo] describes it
    with; a key [CFDictionaryGetValue] does not find is [None]. *)
Record CGRect : Type := {
  origin_x : Q; origin_y : Q; size_width : Q; size_height : Q
}.

Record CFWindow : Type := {
  kCGWindowOwnerPID : option Z;
  kCGWindowBounds : option CGRect;
  kCGWindowSharingState : option Z;
  kCGWindowLayer : option Z
}.

Inductive CGWindowListOption : Type :=
| kCGWindowListOptionAll
| kCGWindowListOptionOnScreenOnly.

(** The window server answers a query with an array, or with [NULL]. *)
Record WindowServer : Type := {
  CGWindowListCopyWindowInfo : CGWindowListOption -> pointer (list CFWindow)
}.

(** [for (CFIndex i = 0; i < CFArrayGetCount(array); i++) body] over a
    loop state. *)
Definition for_each {A S : Type} (array : list A) (body : S -> A -> S) (s : S)
  : S :=
  fold_left body array s.

(** [windowPID && windowOwnerPID == pid] *)
Definition owned_by (pid : Z) (window : CFWindow) : bool :=
  match kCGWindowOwnerPID window with
  | Some windowOwnerPID => windowOwnerPID =? pid
  | None => false
  end.

Definition Qltb (x y : Q) : bool := negb (Qle_bool y x).

(** ** The window metrics *)

Definition getWindowCount (ws : WindowServer) (pid : Z) : Z :=
  if pid <=? 0 then 0
  else
    match CGWindowListCopyWindowInfo ws kCGWindowListOptionOnScreenOnly with
    | NULL => 0
    | Ptr windowList =>
        for_each windowList
          (fun count window =>
             if owned_by pid window then count + 1 else count)
          0
    end.

(** The test on [rect] in [detectScreenEvasion]. *)
Definition off_screen_or_tiny (rect : CGRect) : bool :=
  Qltb (origin_x rect) (inject_Z (-1000))
  || Qltb (origin_y rect) (inject_Z (-1000))
  || Qltb (size_width rect) (inject_Z 1)
  || Qltb (size_height rect) (inject_Z 1)
  || Qltb (inject_Z 10000) (origin_x rect)
  || Qltb (inject_Z 10000) (origin_y rect).

Definition detectScreenEvasion_body (pid : Z) (suspiciousCount : Z)
    (window : CFWindow) : Z :=
  if owned_by pid window then
    let suspiciousCount :=
      match kCGWindowBounds window with
      | Some rect =>
          if off_screen_or_tiny rect then suspiciousCount + 1
          else suspiciousCount
      | None => suspiciousCount
      end in
    match kCGWindowSharingState window with
    | Some sharing =>
        if sharing =? 0 then suspiciousCount + 1 else suspiciousCount
    | None => suspiciousCount
    end
  else suspiciousCount.

Definition detectScreenEvasion (ws : WindowServer) (pid : Z) : Z :=
  if pid <=? 0 then 0
  else
    match CGWindowListCopyWindowInfo ws kCGWindowListOptionAll with
    | NULL => 0
    | Ptr windowList => for_each windowList (detectScreenEvasion_body pid) 0
    end.

Definition detectElevatedLayers_body (pid : Z) (elevatedCount : Z)
    (window : CFWindow) : Z :=
  if owned_by pid window then
    match kCGWindowLayer window with
    | Some layerValue =>
        if 2 <? layerValue then elevatedCount + 1 else elevatedCount
    | None => elevatedCount
    end
  else elevatedCount.

Definition detectElevatedLayers (ws : WindowServer) (pid : Z) : Z :=
  if pid <=? 0 then 0
  else
    match CGWindowListCopyWindowInfo ws kCGWindowListOptionAll with
    | NULL => 0
    | Ptr windowList => for_each windowList (detectElevatedLayers_body pid) 0
    end.

Module WindowProperties.
Record t : Type := Make {
  windowCount : Z;
  sharingStateDisabled : Z;
  elevatedLayers : Z;
  suspiciousPatterns : Z
}.
End WindowProperties.

Definition getWindowProperties_body (pid : Z)
    (properties : WindowProperties.t) (window : CFWindow)
  : WindowProperties.t :=
  if owned_by pid window then
    match kCGWindowSharingState window with
    | Some sharing =>
        if sharing =? 0
        then WindowProperties.Make
               (WindowProperties.windowCount properties)
               (WindowProperties.sharingStateDisabled properties + 1)
               (WindowProperties.elevatedLayers properties)
               (WindowProperties.suspiciousPatterns properties)
        else properties
    | None => properties
    end
  else properties.

(** The status, and the caller's structure as the call leaves it. *)
Definition getWindowProperties (ws : WindowServer) (pid : Z)
    (properties : pointer WindowProperties.t)
  : Z * pointer WindowProperties.t :=
  match properties with
  | NULL => (BRIDGE_ERROR_NULL_POINTER, NULL)
  | Ptr _ =>
      if pid <=? 0 then (BRIDGE_ERROR_INVALID_PARAMETER, properties)
      else
        let filled :=
          WindowProperties.Make (getWindowCount ws pid) 0
            (detectElevatedLayers ws pid) (detectScreenEvasion ws pid) in
        match CGWindowListCopyWindowInfo ws kCGWindowListOptionAll with
        | NULL => (BRIDGE_ERROR_SYSTEM_CALL, Ptr filled)
        | Ptr windowList =>
            (BRIDGE_SUCCESS,
             Ptr (for_each windowList (getWindowProperties_body pid) filled))
        end
  end.

(** ** The process table and libproc *)

Record kinfo_proc : Type := { p_pid : Z }.          (* kp_proc.p_pid *)
Record proc_bsdinfo : Type := { pbi_name : string }.

Module SystemProcessInfo.
Record t : Type := Make {
  pid : Z;
  name : string;
  path : string;
  windowCount : Z;
  suspiciousWindowCount : Z;
  screenEvasionCount : Z;
  elevatedLayerCount : Z
}.
End SystemProcessInfo.

(** The host as one bridge call meets it: the constant of <sys/proc_info.h>
    that sizes the name and path buffers, and the answers of the calls.
    - [sysctl_size]: status of the sizing [sysctl] and the size it reports;
    - [sysctl_procs]: status of the second [sysctl] and the entries it wrote;
      it sets [size] to their total size, so that
      [size / sizeof(struct kinfo_proc)] is their number;
    - [proc_pidinfo]: the value returned and the structure filled;
    - [proc_pidpath]: the value returned and the string left in the buffer. *)
Record Darwin : Type := {
  PROC_PIDPATHINFO_MAXSIZE : Z;
  pthread_mutex_lock : Z;
  sysctl_size : Z * Z;
  malloc_proc_list : bool;
  sysctl_procs : Z * list kinfo_proc;
  malloc_processes : bool;
  proc_pidinfo : Z -> Z * proc_bsdinfo;
  proc_pidpath : Z -> Z -> Z * string;
  window_server : WindowServer
}.

(** [strncpy(dst, src, n); dst[n] = 0] into a zeroed buffer. *)
Definition strncpy (n : Z) (src : string) : string :=
  substring 0 (Z.to_nat n) src.

Definition getProcessName (os : Darwin) (pid : Z) (name : pointer string)
    (nameSize : Z) : Z * pointer string :=
  match name with
  | NULL => (BRIDGE_ERROR_NULL_POINTER, name)
  | Ptr _ =>
      if nameSize =? 0 then (BRIDGE_ERROR_NULL_POINTER, name)
      else if pid <=? 0 then (BRIDGE_ERROR_INVALID_PARAMETER, name)
      else
        let (written, proc_info) := proc_pidinfo os pid in
        if written <=? 0 then (BRIDGE_ERROR_SYSTEM_CALL, name)
        else (BRIDGE_SUCCESS, Ptr (strncpy (nameSize - 1) (pbi_name proc_info)))
  end.

Definition getProcessPath (os : Darwin) (pid : Z) (path : pointer string)
    (pathSize : Z) : Z * pointer string :=
  match path with
  | NULL => (BRIDGE_ERROR_NULL_POINTER, path)
  | Ptr _ =>
      if pathSize =? 0 then (BRIDGE_ERROR_NULL_POINTER, path)
      else if pid <=? 0 then (BRIDGE_ERROR_INVALID_PARAMETER, path)
      else if UINT32_MAX <? pathSize then (BRIDGE_ERROR_INVALID_PARAMETER, path)
      else
        let (written, found) := proc_pidpath os pid pathSize in
        if written <=? 0 then (BRIDGE_ERROR_SYSTEM_CALL, Ptr EmptyString)
        else (BRIDGE_SUCCESS, Ptr found)
  end.

(** ** getAllProcesses *)

(** The cast [(int)] of a [size_t]. *)
Definition int_of_size_t (n : Z) : Z := (n + 2 ^ 31) mod 2 ^ 32 - 2 ^ 31.

(** What a pointer holds after the call that may have replaced it. *)
Definition pointee_or {A : Type} (p : pointer A) (old : A) : A :=
  match p with NULL => old | Ptr a => a end.

(** The array [*processes]: a slot is [None] until the loop writes it. *)
Abbreviation process_array := (list (option SystemProcessInfo.t)).

(** One iteration of the loop over [proc_list], on the array and
    [valid_count]. *)
Definition getAllProcesses_body (os : Darwin)
    (state : process_array * nat) (entry : kinfo_proc)
  : process_array * nat :=
  let (processes, valid_count) := state in
  let pid := p_pid entry in
  if pid <=? 0 then state
  else
    let info := SystemProcessInfo.Make pid EmptyString EmptyString 0 0 0 0 in
    let processes := <[valid_count := Some info]> processes in
    let (named, name) :=
      getProcessName os pid (Ptr (SystemProcessInfo.name info))
        (PROC_PIDPATHINFO_MAXSIZE os) in
    if named =? BRIDGE_SUCCESS then
      let (_, path) :=
        getProcessPath os pid (Ptr (SystemProcessInfo.path info))
          (PROC_PIDPATHINFO_MAXSIZE os) in
      let windowCount := getWindowCount (window_server os) pid in
      let screenEvasionCount := detectScreenEvasion (window_server os) pid in
      let elevatedLayerCount := detectElevatedLayers (window_server os) pid in
      let suspiciousWindowCount :=
        if (0 <? screenEvasionCount) || (0 <? elevatedLayerCount)
        then 1 else 0 in
      let info :=
        SystemProcessInfo.Make pid
          (pointee_or name EmptyString) (pointee_or path EmptyString)
          windowCount suspiciousWindowCount
          screenEvasionCount elevatedLayerCount in
      (<[valid_count := Some info]> processes, S valid_count)
    else (processes, valid_count).

(** The value returned and the caller's [*processes] after the call. *)
Definition getAllProcesses (os : Darwin)
    (processes : pointer (pointer process_array))
  : Z * pointer (pointer process_array) :=
  match processes with
  | NULL => (BRIDGE_ERROR_NULL_POINTER, processes)
  | Ptr _ =>
      if negb (pthread_mutex_lock os =? 0)
      then (BRIDGE_ERROR_SYSTEM_CALL, processes)
      else
        let (sized, size) := sysctl_size os in
        if negb (sized =? 0) then (BRIDGE_ERROR_SYSTEM_CALL, processes)
        else if size =? 0 then (BRIDGE_ERROR_INVALID_PARAMETER, processes)
        else if negb (malloc_proc_list os)
        then (BRIDGE_ERROR_MEMORY_ALLOCATION, processes)
        else
          let (fetched, proc_list) := sysctl_procs os in
          if negb (fetched =? 0) then (BRIDGE_ERROR_SYSTEM_CALL, processes)
          else
            let proc_count := int_of_size_t (Z.of_nat (length proc_list)) in
            if proc_count <=? 0
            then (BRIDGE_ERROR_INVALID_PARAMETER, processes)
            else if negb (malloc_processes os)
            then (BRIDGE_ERROR_MEMORY_ALLOCATION, Ptr NULL)
            else
              let (array, valid_count) :=
                for_each (take (Z.to_nat proc_count) proc_list)
                  (getAllProcesses_body os)
                  (replicate (Z.to_nat proc_count) None, O) in
              (Z.of_nat valid_count, Ptr (Ptr array))
  end.

(** The records a call hands to its caller: the first [valid_count] slots of
    the array, when the call succeeded. *)
Definition surfaced (result : Z * pointer (pointer process_array))
  : process_array :=
  match result with
  | (valid_count, Ptr (Ptr array)) => take (Z.to_nat valid_count) array
  | _ => []
  end.

(** ** Truely-Bridging-Header.h: the helpers handed to Swift *)

Definition isBridgeSuccess (result : Z) : Z :=
  if result =? BRIDGE_SUCCESS then 1 else 0.

Definition isBridgeError (result : Z) : Z :=
  if result <? 0 then 1 else 0.

Definition getBridgeErrorDescription (errorCode : Z) : string :=
  if errorCode =? BRIDGE_SUCCESS then "Success"
  else if errorCode =? BRIDGE_ERROR_NULL_POINTER then "Null pointer error"
  else if errorCode =? BRIDGE_ERROR_INVALID_PARAMETER then "Invalid parameter"
  else if errorCode =? BRIDGE_ERROR_MEMORY_ALLOCATION
  then "Memory allocation failed"
  else if errorCode =? BRIDGE_ERROR_SYSTEM_CALL then "System call failed"
  else if errorCode =? BRIDGE_ERROR_FILE_ACCESS then "File access error"
  else "Unknown error".

(** ** initializeProcessBridge and cleanupProcessBridge

    The two globals of the bridge, as one thread sees them: whether it
    holds [g_bridge_mutex], whether the mutex was destroyed, and
    [g_bridge_initialized].  The answer of [pthread_mutex_lock] is the
    host's. *)
Record Bridge : Type := {
  mutex_held : bool;
  mutex_destroyed : bool;
  g_bridge_initialized : Z
}.

(** [PTHREAD_MUTEX_INITIALIZER] and [g_bridge_initialized = 0]. *)
Definition static_bridge : Bridge :=
  {| mutex_held := false; mutex_destroyed := false; g_bridge_initialized := 0 |}.

Definition initializeProcessBridge (os : Darwin) (bridge : Bridge)
  : Z * Bridge :=
  let result := pthread_mutex_lock os in
  if negb (result =? 0) then (BRIDGE_ERROR_SYSTEM_CALL, bridge)
  else
    let bridge :=
      {| mutex_held := true;
         mutex_destroyed := mutex_destroyed bridge;
         g_bridge_initialized := g_bridge_initialized bridge |} in
    let bridge :=
      if g_bridge_initialized bridge =? 0
      then {| mutex_held := mutex_held bridge;
              mutex_destroyed := mutex_destroyed bridge;
              g_bridge_initialized := 1 |}
      else bridge in
    (BRIDGE_SUCCESS,
     {| mutex_held := false;
        mutex_destroyed := mutex_destroyed bridge;
        g_bridge_initialized := g_bridge_initialized bridge |}).

Definition cleanupProcessBridge (os : Darwin) (bridge : Bridge) : Bridge :=
  let bridge :=
    if pthread_mutex_lock os =? 0
    then {| mutex_held := true;
            mutex_destroyed := mutex_destroyed bridge;
            g_bridge_initialized := g_bridge_initialized bridge |}
    else bridge in
  let bridge :=
    {| mutex_held := mutex_held bridge;
       mutex_destroyed := mutex_destroyed bridge;
       g_bridge_initialized := 0 |} in
  let bridge :=
    {| mutex_held := false;
       mutex_destroyed := mutex_destroyed bridge;
       g_bridge_initialized := g_bridge_initialized bridge |} in
  {| mutex_held := mutex_held bridge;
     mutex_destroyed := true;
     g_bridge_initialized := g_bridge_initialized bridge |}.

(** ** Vocabulary of the stated properties

    The conditions as the specification words them, to compare the code
    with. *)

Definition owner_is (pid : Z) (window : CFWindow) : Prop :=
  kCGWindowOwnerPID window = Some pid.

(** Geometry implausibility: off-screen origin or collapsed size. *)
Definition implausible (rect : CGRect) : Prop :=
  (origin_x rect < inject_Z (-1000) \/ origin_y rect < inject_Z (-1000)
   \/ inject_Z 10000 < origin_x rect \/ inject_Z 10000 < origin_y rect
   \/ size_width rect < inject_Z 1 \/ size_height rect < inject_Z 1)%Q.

Definition geometry_implausible (window : CFWindow) : Prop :=
  match kCGWindowBounds window with
  | Some rect => implausible rect
  | None => False
  end.

(** The sharing state says the window is excluded from capture. *)
Definition capture_excluded (window : CFWindow) : Prop :=
  kCGWindowSharingState window = Some 0.

(** The layer of the window is above [threshold]. *)
Definition layer_exceeds (threshold : Z) (window : CFWindow) : Prop :=
  match kCGWindowLayer window with
  | Some layerValue => threshold < layerValue
  | None => False
  end.

#[global] Instance Qlt_decision (x y : Q) : Decision (x < y)%Q.
Proof.
  destruct (Qlt_le_dec x y) as [Hlt | Hle]; [left | right]; [exact Hlt |].
  intros Hlt. exact (Qle_not_lt _ _ Hle Hlt).
Defined.

#[global] Instance implausible_decision (rect : CGRect) :
  Decision (implausible rect).
Proof. unfold implausible. apply _. Defined.

#[global] Instance geometry_implausible_decision (window : CFWindow) :
  Decision (geometry_implausible window).
Proof. unfold geometry_implausible. destruct (kCGWindowBounds window); apply _. Defined.

#[global] Instance capture_excluded_decision (window : CFWindow) :
  Decision (capture_excluded window).
Proof. unfold capture_excluded. apply _. Defined.

#[global] Instance owner_is_decision (pid : Z) (window : CFWindow) :
  Decision (owner_is pid window).
Proof. unfold owner_is. apply _. Defined.

#[global] Instance layer_exceeds_decision (threshold : Z) (window : CFWindow) :
  Decision (layer_exceeds threshold window).
Proof. unfold layer_exceeds. destruct (kCGWindowLayer window); apply _. Defined.

(** How many of the two evasion conditions a window satisfies. *)
Definition conditions_satisfied (window : CFWindow) : nat :=
  (if decide (geometry_implausible window) then 1 else 0)
  + (if decide (capture_excluded window) then 1 else 0).

(** A window with the given owner, bounds, sharing state and layer. *)
Definition window_at (owner : Z) (x y width height : Z)
    (sharing layer : option Z) : CFWindow :=
  {| kCGWindowOwnerPID := Some owner;
     kCGWindowBounds :=
       Some {| origin_x := inject_Z x; origin_y := inject_Z y;
               size_width := inject_Z width; size_height := inject_Z height |};
     kCGWindowSharingState := sharing;
     kCGWindowLayer := layer |}.

(** A window server whose two lists are given; [NULL] when unavailable. *)
Definition window_server_of (all on_screen : pointer (list CFWindow))
  : WindowServer :=
  {| CGWindowListCopyWindowInfo := fun option =>
       match option with
       | kCGWindowListOptionAll => all
       | kCGWindowListOptionOnScreenOnly => on_screen
       end |}.

(** Name resolution succeeds for [pid], on a zeroed buffer of the size the
    enumeration passes. *)
Definition resolves_name (os : Darwin) (pid : Z) : Prop :=
  fst (getProcessName os pid (Ptr EmptyString) (PROC_PIDPATHINFO_MAXSIZE os))
  = BRIDGE_SUCCESS.

Definition resolves_path (os : Darwin) (pid : Z) : Prop :=
  fst (getProcessPath os pid (Ptr EmptyString) (PROC_PIDPATHINFO_MAXSIZE os))
  = BRIDGE_SUCCESS.

(** The entries of the process table the loop of [getAllProcesses] visits. *)
Definition visited (os : Darwin) : list kinfo_proc :=
  take (Z.to_nat (int_of_size_t (Z.of_nat (length (snd (sysctl_procs os))))))
       (snd (sysctl_procs os)).

(** An entry that yields a record: live pid and a name. *)
Definition kept (os : Darwin) (entry : kinfo_proc) : Prop :=
  0 < p_pid entry /\ resolves_name os (p_pid entry).

#[global] Instance kept_decision (os : Darwin) (entry : kinfo_proc) :
  Decision (kept os entry).
Proof. unfold kept, resolves_name. apply _. Defined.

(** The record of a process: its name and path as resolved, the three
    window metrics and the flag derived from them. *)
Definition record_of (os : Darwin) (pid : Z) : SystemProcessInfo.t :=
  let ws := window_server os in
  {| SystemProcessInfo.pid := pid;
     SystemProcessInfo.name :=
       pointee_or
         (snd (getProcessName os pid (Ptr EmptyString)
                 (PROC_PIDPATHINFO_MAXSIZE os))) EmptyString;
     SystemProcessInfo.path :=
       pointee_or
         (snd (getProcessPath os pid (Ptr EmptyString)
                 (PROC_PIDPATHINFO_MAXSIZE os))) EmptyString;
     SystemProcessInfo.windowCount := getWindowCount ws pid;
     SystemProcessInfo.suspiciousWindowCount :=
       if decide (0 < detectScreenEvasion ws pid
                  \/ 0 < detectElevatedLayers ws pid)
       then 1 else 0;
     SystemProcessInfo.screenEvasionCount := detectScreenEvasion ws pid;
     SystemProcessInfo.elevatedLayerCount := detectElevatedLayers ws pid |}.

(** A host to run the enumeration on: four table entries, the kernel's
    slot 0, a process whose name does not resolve, one with a floating
    window parked off screen, and one without a path. *)
Definition sample_os : Darwin :=
  {| PROC_PIDPATHINFO_MAXSIZE := 4096;
     pthread_mutex_lock := 0;
     sysctl_size := (0, 2592);
     malloc_proc_list := true;
     sysctl_procs := (0, [ {| p_pid := 0 |}; {| p_pid := 5 |};
                           {| p_pid := 7 |}; {| p_pid := 9 |} ]);
     malloc_processes := true;
     proc_pidinfo := fun pid =>
       if pid =? 5 then (0, {| pbi_name := EmptyString |})
       else (136, {| pbi_name := "proc"%string |});
     proc_pidpath := fun pid _ =>
       if pid =? 9 then (0, "?"%string) else (9, "/bin/proc"%string);
     window_server :=
       window_server_of
         (Ptr [ window_at 7 (-2000) (-2000) 100 100 (Some 0) (Some 3);
                window_at 7 0 0 800 600 (Some 1) (Some 0);
                window_at 9 0 0 800 600 (Some 1) (Some 0) ])
         (Ptr [ window_at 7 0 0 800 600 (Some 1) (Some 0);
                window_at 9 0 0 800 600 (Some 1) (Some 0) ]) |}.

(** A stream on which every call of the protocol succeeds. *)
Definition healthy (file : FILE) : Prop :=
  fseek_end file = 0 /\ 0 <= ftell_end file /\ fseek_set file = 0
  /\ read_error file = false.

#[global] Instance healthy_decision (file : FILE) : Decision (healthy file).
Proof. unfold healthy. apply _. Defined.

(** Lowercase hexadecimal, as the specification means it. *)
Definition lowercase_hex_digits : list ascii :=
  list_ascii_of_string "0123456789abcdef".

Definition hex_pair (b : Z) : list ascii :=
  [ nth (Z.to_nat (b / 16)) lowercase_hex_digits NUL;
    nth (Z.to_nat (b mod 16)) lowercase_hex_digits NUL ].

(** The digest string of a byte content: SHA-256, two digits a byte. *)
Definition digest_string (content : list byte) : list ascii :=
  flat_map hex_pair (SHA256 content).

(** What the conversion leaves in the caller's buffer for a digest. *)
Definition store_digest (hash : list Z) (hashString : list ascii)
  : list ascii :=
  <[Z.to_nat (CC_SHA256_DIGEST_LENGTH * 2) := NUL]>
    (snd (hex_loop hash 0 hashString)).

(** The digest of the empty file as the specification prints it, and as
    SHA-256 defines it. *)
Definition spec_empty_digest : list ascii :=
  list_ascii_of_string
    "e3b0c44298fc1c149afbf4c8996fb92427ae41e4649b934ca495991b7852b85".

Definition sha256_empty_digest : list ascii :=
  list_ascii_of_string
    "e3b0c44298fc1c149afbf4c8996fb92427ae41e4649b934ca495991b7852b855".

(** A file system with an empty file, a three-byte file, a file of 5000
    bytes (two reads), a stream that cannot seek, and nothing else. *)
Definition sample_fs : FileSystem :=
  {| fopen_rb := fun path =>
       if String.eqb path "/empty" then Ptr (File 0 0 0 [] false)
       else if String.eqb path "/abc"
       then Ptr (File 0 3 0 ["a"%byte; "b"%byte; "c"%byte] false)
       else if String.eqb path "/copy-of-abc"
       then Ptr (File 0 3 0 ["a"%byte; "b"%byte; "c"%byte] false)
       else if String.eqb path "/5000"
       then Ptr (File 0 5000 0 (repeat "a"%byte 5000) false)
       else if String.eqb path "/dev/stdin"
       then Ptr (File (-1) (-1) (-1) [] false)
       else NULL |}.

(** A caller's buffer of 65 characters. *)
Definition buffer65 : list ascii := repeat "#"%char 65.

(** The calls a host makes on the two globals, each with the host as it
    answers that call, and the state they leave one after the other. *)
Inductive bridge_call : Type :=
| Initialize (os : Darwin)
| Cleanup (os : Darwin).

Definition run_call (bridge : Bridge) (call : bridge_call) : Bridge :=
  match call with
  | Initialize os => snd (initializeProcessBridge os bridge)
  | Cleanup os => cleanupProcessBridge os bridge
  end.

Definition run_calls (calls : list bridge_call) (bridge : Bridge) : Bridge :=
  fold_left run_call calls bridge.

(** Every step of the enumeration before its loop succeeds. *)
Definition census_available (os : Darwin) : Prop :=
  pthread_mutex_lock os = 0
  /\ fst (sysctl_size os) = 0 /\ snd (sysctl_size os) <> 0
  /\ malloc_proc_list os = true
  /\ fst (sysctl_procs os) = 0
  /\ 0 < int_of_size_t (Z.of_nat (length (snd (sysctl_procs os))))
  /\ malloc_processes os = true.

(** The statuses of ProcessBridge.h. *)
Definition bridge_status (status : Z) : Prop :=
  BRIDGE_ERROR_FILE_ACCESS <= status <= BRIDGE_SUCCESS.

(** The windows of a list that belong to [pid]. *)
Definition owned (pid : Z) (windows : list CFWindow) : list CFWindow :=
  filter (owner_is pid) windows.

(** The sample host in a session without a window server. *)
Definition headless_os : Darwin :=
  {| PROC_PIDPATHINFO_MAXSIZE := PROC_PIDPATHINFO_MAXSIZE sample_os;
     pthread_mutex_lock := pthread_mutex_lock sample_os;
     sysctl_size := sysctl_size sample_os;
     malloc_proc_list := malloc_proc_list sample_os;
     sysctl_procs := sysctl_procs sample_os;
     malloc_processes := malloc_processes sample_os;
     proc_pidinfo := proc_pidinfo sample_os;
     proc_pidpath := proc_pidpath sample_os;
     window_server := window_server_of NULL NULL |}.

(** A host whose process table holds the kernel's slot alone. *)
Definition kernel_only_os : Darwin :=
  {| PROC_PIDPATHINFO_MAXSIZE := PROC_PIDPATHINFO_MAXSIZE sample_os;
     pthread_mutex_lock := pthread_mutex_lock sample_os;
     sysctl_size := sysctl_size sample_os;
     malloc_proc_list := malloc_proc_list sample_os;
     sysctl_procs := (0, [ {| p_pid := 0 |} ]);
     malloc_processes := malloc_processes sample_os;
     proc_pidinfo := proc_pidinfo sample_os;
     proc_pidpath := proc_pidpath sample_os;
     window_server := window_server sample_os |}.

(** * Properties *)

(** ** Loops over the window list *)

Lemma for_each_app {A S : Type} (body : S -> A -> S) (l1 l2 : list A) (s : S) :
  for_each (l1 ++ l2) body s = for_each l2 body (for_each l1 body s).
Proof. unfold for_each. apply fold_left_app. Qed.

Lemma for_each_cons {A S : Type} (body : S -> A -> S) (a : A) (l : list A)
    (s : S) :
  for_each (a :: l) body s = for_each l body (body s a).
Proof. reflexivity. Qed.

Lemma owned_by_spec (pid : Z) (window : CFWindow) :
  owned_by pid window = true <-> owner_is pid window.
Proof.
  unfold owned_by, owner_is. destruct (kCGWindowOwnerPID window) as [o |].
  - rewrite Z.eqb_eq. split; [intros -> | intros [= ->]]; reflexivity.
  - split; discriminate.
Qed.

Lemma Qltb_spec (x y : Q) : Qltb x y = true <-> (x < y)%Q.
Proof.
  unfold Qltb. rewrite negb_true_iff. split.
  - intros H. apply Qnot_le_lt. intros Hle.
    apply Qle_bool_iff in Hle. congruence.
  - intros Hlt. destruct (Qle_bool y x) eqn:E; [| reflexivity].
    apply Qle_bool_iff in E. exfalso. exact (Qle_not_lt _ _ E Hlt).
Qed.

Lemma off_screen_or_tiny_spec (rect : CGRect) :
  off_screen_or_tiny rect = true <-> implausible rect.
Proof.
  unfold off_screen_or_tiny, implausible.
  rewrite !orb_true_iff, !Qltb_spec. tauto.
Qed.

Lemma geometry_turn (count : Z) (window : CFWindow) :
  match kCGWindowBounds window with
  | Some rect => if off_screen_or_tiny rect then count + 1 else count
  | None => count
  end
  = count + (if decide (geometry_implausible window) then 1 else 0).
Proof.
  destruct (decide (geometry_implausible window)) as [H | H];
    unfold geometry_implausible in H;
    destruct (kCGWindowBounds window) as [rect |]; try tauto; try lia.
  - apply off_screen_or_tiny_spec in H. rewrite H. reflexivity.
  - destruct (off_screen_or_tiny rect) eqn:E; [| lia].
    apply off_screen_or_tiny_spec in E. contradiction.
Qed.

Lemma sharing_turn (count : Z) (window : CFWindow) :
  match kCGWindowSharingState window with
  | Some sharing => if sharing =? 0 then count + 1 else count
  | None => count
  end
  = count + (if decide (capture_excluded window) then 1 else 0).
Proof.
  destruct (decide (capture_excluded window)) as [H | H];
    unfold capture_excluded in H.
  - rewrite H. reflexivity.
  - destruct (kCGWindowSharingState window) as [sharing |]; [| lia].
    destruct (Z.eqb_spec sharing 0) as [-> | _]; [congruence | lia].
Qed.

(** One turn of the evasion loop adds the number of conditions the window
    satisfies, when [pid] owns it, and nothing otherwise. *)
Lemma detectScreenEvasion_body_spec (pid count : Z) (window : CFWindow) :
  detectScreenEvasion_body pid count window
  = count + (if decide (owner_is pid window)
             then Z.of_nat (conditions_satisfied window) else 0).
Proof.
  unfold detectScreenEvasion_body, conditions_satisfied.
  rewrite sharing_turn, geometry_turn.
  destruct (decide (owner_is pid window)) as [Ho | Ho].
  - apply owned_by_spec in Ho. rewrite Ho.
    destruct (decide (geometry_implausible window)),
             (decide (capture_excluded window)); simpl; lia.
  - destruct (owned_by pid window) eqn:E; [| lia].
    apply owned_by_spec in E. contradiction.
Qed.

Lemma detectScreenEvasion_loop (pid : Z) (windows : list CFWindow) (count : Z) :
  for_each windows (detectScreenEvasion_body pid) count
  = count + Z.of_nat (sum_list (conditions_satisfied <$> filter (owner_is pid) windows)).
Proof.
  revert count. induction windows as [| w windows IH]; intros count.
  - simpl. lia.
  - unfold for_each in *. simpl fold_left. rewrite IH.
    rewrite detectScreenEvasion_body_spec, filter_cons.
    destruct (decide (owner_is pid w)); [| lia].
    rewrite fmap_cons.
    change (sum_list (?x :: ?l)) with (x + sum_list l)%nat. lia.
Qed.

Lemma conditions_satisfied_parked (owner : Z) (sharing layer : option Z) :
  conditions_satisfied (window_at owner (-2000) (-2000) 100 100 sharing layer)
  = if decide (sharing = Some 0) then 2%nat else 1%nat.
Proof.
  unfold conditions_satisfied.
  rewrite (decide_True (P := geometry_implausible _)).
  - unfold capture_excluded. simpl.
    destruct (decide (sharing = Some 0)); reflexivity.
  - left. reflexivity.
Qed.

Lemma detectScreenEvasion_total (ws : WindowServer) (pid : Z)
    (windows : list CFWindow) :
  0 < pid ->
  CGWindowListCopyWindowInfo ws kCGWindowListOptionAll = Ptr windows ->
  detectScreenEvasion ws pid
  = Z.of_nat (sum_list (conditions_satisfied <$> filter (owner_is pid) windows)).
Proof.
  intros Hpid Hq. unfold detectScreenEvasion. rewrite Hq.
  destruct (Z.leb_spec pid 0); [lia |].
  rewrite detectScreenEvasion_loop. lia.
Qed.

(** C3. For a process [pid] (positive) and the list the window server
    answers with, [detectScreenEvasion] returns the sum, over the windows
    [pid] owns, of the number of conditions each satisfies: one for an
    implausible geometry and one for a capture-excluded sharing state, so two
    for a window with both.  A window at (-2000,-2000) of size (100,100)
    adds 1 by its geometry alone, and 2 when it is not capturable too. *)
Theorem detectScreenEvasion_one_per_condition :
  forall (ws : WindowServer) (pid : Z) (windows : list CFWindow),
    0 < pid ->
    CGWindowListCopyWindowInfo ws kCGWindowListOptionAll = Ptr windows ->
    detectScreenEvasion ws pid
    = Z.of_nat (sum_list (conditions_satisfied <$> filter (owner_is pid) windows))
    /\ (forall w : CFWindow,
          (geometry_implausible w /\ capture_excluded w ->
           conditions_satisfied w = 2%nat)
          /\ (geometry_implausible w /\ ~ capture_excluded w ->
              conditions_satisfied w = 1%nat)
          /\ (~ geometry_implausible w /\ capture_excluded w ->
              conditions_satisfied w = 1%nat)
          /\ (~ geometry_implausible w /\ ~ capture_excluded w ->
              conditions_satisfied w = 0%nat))
    /\ (forall (ws' : WindowServer) (before after : list CFWindow)
               (sharing layer : option Z),
          windows
          = before ++ window_at pid (-2000) (-2000) 100 100 sharing layer :: after ->
          CGWindowListCopyWindowInfo ws' kCGWindowListOptionAll
          = Ptr (before ++ after) ->
          detectScreenEvasion ws pid
          = detectScreenEvasion ws' pid
            + (if decide (sharing = Some 0) then 2 else 1)).
Proof.
  intros ws pid windows Hpid Hq. split; [| split].
  - apply detectScreenEvasion_total; assumption.
  - intros w. unfold conditions_satisfied.
    repeat split; intros [Hg Hc];
      destruct (decide (geometry_implausible w)),
               (decide (capture_excluded w)); tauto.
  - intros ws' before after sharing layer -> Hq'.
    rewrite (detectScreenEvasion_total ws pid _ Hpid Hq).
    rewrite (detectScreenEvasion_total ws' pid _ Hpid Hq').
    rewrite !filter_app, filter_cons, decide_True by reflexivity.
    rewrite !fmap_app, fmap_cons, !sum_list_with_app.
    change (sum_list (?x :: ?l)) with (x + sum_list l)%nat.
    rewrite conditions_satisfied_parked.
    unfold sum_list. destruct (decide (sharing = Some 0)); lia.
Qed.

Lemma detectScreenEvasion_one_per_condition_witness :
  detectScreenEvasion
    (window_server_of
       (Ptr [window_at 7 (-2000) (-2000) 100 100 (Some 0) None;
             window_at 7 0 0 800 600 (Some 1) (Some 0);
             window_at 8 0 0 0 0 (Some 0) None])
       NULL) 7
  = Z.of_nat
      (sum_list
         (conditions_satisfied
            <$> filter (owner_is 7)
                  [window_at 7 (-2000) (-2000) 100 100 (Some 0) None;
                   window_at 7 0 0 800 600 (Some 1) (Some 0);
                   window_at 8 0 0 0 0 (Some 0) None])).
Proof.
  apply (detectScreenEvasion_one_per_condition
           (window_server_of
              (Ptr [window_at 7 (-2000) (-2000) 100 100 (Some 0) None;
                    window_at 7 0 0 800 600 (Some 1) (Some 0);
                    window_at 8 0 0 0 0 (Some 0) None])
              NULL) 7 _).
  - lia.
  - reflexivity.
Defined.

(** ** Elevated layers *)

Lemma detectElevatedLayers_body_spec (pid count : Z) (window : CFWindow) :
  detectElevatedLayers_body pid count window
  = count + (if decide (owner_is pid window /\ layer_exceeds 2 window)
             then 1 else 0).
Proof.
  unfold detectElevatedLayers_body.
  destruct (decide (owner_is pid window /\ layer_exceeds 2 window)) as [H | H];
    unfold layer_exceeds in H.
  - destruct H as [Ho Hl]. apply owned_by_spec in Ho. rewrite Ho.
    destruct (kCGWindowLayer window) as [l |]; [| contradiction].
    destruct (Z.ltb_spec 2 l); lia.
  - destruct (owned_by pid window) eqn:E; [| lia].
    apply owned_by_spec in E.
    destruct (kCGWindowLayer window) as [l |]; [| lia].
    destruct (Z.ltb_spec 2 l); [tauto | lia].
Qed.

Lemma detectElevatedLayers_loop (pid : Z) (windows : list CFWindow) (count : Z) :
  for_each windows (detectElevatedLayers_body pid) count
  = count
    + Z.of_nat (length (filter (fun w => owner_is pid w /\ layer_exceeds 2 w)
                               windows)).
Proof.
  revert count. induction windows as [| w windows IH]; intros count.
  - simpl. lia.
  - unfold for_each in *. simpl fold_left. rewrite IH.
    rewrite detectElevatedLayers_body_spec, filter_cons.
    destruct (decide (owner_is pid w /\ layer_exceeds 2 w)); simpl length; lia.
Qed.

Lemma detectElevatedLayers_total (ws : WindowServer) (pid : Z)
    (windows : list CFWindow) :
  0 < pid ->
  CGWindowListCopyWindowInfo ws kCGWindowListOptionAll = Ptr windows ->
  detectElevatedLayers ws pid
  = Z.of_nat (length (filter (fun w => owner_is pid w /\ layer_exceeds 2 w)
                             windows)).
Proof.
  intros Hpid Hq. unfold detectElevatedLayers. rewrite Hq.
  destruct (Z.leb_spec pid 0); [lia |].
  rewrite detectElevatedLayers_loop. lia.
Qed.

(** C4. For a process [pid] (positive), [detectElevatedLayers] returns the
    number of windows that [pid] owns and whose layer is strictly above 2:
    one more window of [pid] with layer 3 adds 1 to the count, one with
    layer 1 leaves it as it is. *)
Theorem detectElevatedLayers_counts_above_2 :
  forall (ws : WindowServer) (pid : Z) (windows : list CFWindow),
    0 < pid ->
    CGWindowListCopyWindowInfo ws kCGWindowListOptionAll = Ptr windows ->
    detectElevatedLayers ws pid
    = Z.of_nat (length (filter (fun w => owner_is pid w /\ layer_exceeds 2 w)
                               windows))
    /\ (forall (ws' : WindowServer) (before after : list CFWindow)
               (w : CFWindow),
          owner_is pid w ->
          windows = before ++ w :: after ->
          CGWindowListCopyWindowInfo ws' kCGWindowListOptionAll
          = Ptr (before ++ after) ->
          (kCGWindowLayer w = Some 3 ->
           detectElevatedLayers ws pid = detectElevatedLayers ws' pid + 1)
          /\ (kCGWindowLayer w = Some 1 ->
              detectElevatedLayers ws pid = detectElevatedLayers ws' pid)).
Proof.
  intros ws pid windows Hpid Hq. split.
  - apply detectElevatedLayers_total; assumption.
  - intros ws' before after w Ho -> Hq'.
    rewrite (detectElevatedLayers_total ws pid _ Hpid Hq).
    rewrite (detectElevatedLayers_total ws' pid _ Hpid Hq').
    rewrite !filter_app, filter_cons, !length_app.
    split; intros Hl.
    + rewrite decide_True; [simpl length; lia |].
      split; [exact Ho |]. unfold layer_exceeds. rewrite Hl. lia.
    + rewrite decide_False; [lia |].
      unfold layer_exceeds. rewrite Hl. lia.
Qed.

Lemma detectElevatedLayers_counts_above_2_witness :
  detectElevatedLayers
    (window_server_of
       (Ptr [window_at 7 0 0 800 600 (Some 1) (Some 3);
             window_at 7 0 0 800 600 (Some 1) (Some 1);
             window_at 7 0 0 800 600 (Some 1) (Some 2);
             window_at 8 0 0 800 600 (Some 1) (Some 25)])
       NULL) 7
  = Z.of_nat
      (length
         (filter (fun w => owner_is 7 w /\ layer_exceeds 2 w)
            [window_at 7 0 0 800 600 (Some 1) (Some 3);
             window_at 7 0 0 800 600 (Some 1) (Some 1);
             window_at 7 0 0 800 600 (Some 1) (Some 2);
             window_at 8 0 0 800 600 (Some 1) (Some 25)])).
Proof.
  apply (detectElevatedLayers_counts_above_2
           (window_server_of
              (Ptr [window_at 7 0 0 800 600 (Some 1) (Some 3);
                    window_at 7 0 0 800 600 (Some 1) (Some 1);
                    window_at 7 0 0 800 600 (Some 1) (Some 2);
                    window_at 8 0 0 800 600 (Some 1) (Some 25)])
              NULL) 7 _).
  - lia.
  - reflexivity.
Defined.

Example detectScreenEvasion_two_for_one_window :
  detectScreenEvasion
    (window_server_of
       (Ptr [window_at 7 (-2000) (-2000) 100 100 (Some 0) None]) NULL) 7 = 2
  /\ detectScreenEvasion
       (window_server_of
          (Ptr [window_at 7 (-2000) (-2000) 100 100 (Some 1) None]) NULL) 7 = 1.
Proof. split; reflexivity. Qed.

Example detectElevatedLayers_floating_window :
  detectElevatedLayers
    (window_server_of (Ptr [window_at 7 0 0 800 600 None (Some 3)]) NULL) 7 = 1
  /\ detectElevatedLayers
       (window_server_of (Ptr [window_at 7 0 0 800 600 None (Some 1)]) NULL) 7 = 0.
Proof. split; reflexivity. Qed.

(** ** The window count, and the range of the three metrics *)

Lemma getWindowCount_loop (pid : Z) (windows : list CFWindow) (count : Z) :
  for_each windows
    (fun count window => if owned_by pid window then count + 1 else count)
    count
  = count + Z.of_nat (length (filter (owner_is pid) windows)).
Proof.
  revert count. induction windows as [| w windows IH]; intros count.
  - simpl. lia.
  - unfold for_each in *. simpl fold_left. rewrite IH, filter_cons.
    destruct (decide (owner_is pid w)) as [Ho | Ho].
    + apply owned_by_spec in Ho. rewrite Ho. simpl length. lia.
    + destruct (owned_by pid w) eqn:E; [| lia].
      apply owned_by_spec in E. contradiction.
Qed.

Lemma getWindowCount_total (ws : WindowServer) (pid : Z)
    (windows : list CFWindow) :
  0 < pid ->
  CGWindowListCopyWindowInfo ws kCGWindowListOptionOnScreenOnly = Ptr windows ->
  getWindowCount ws pid = Z.of_nat (length (filter (owner_is pid) windows)).
Proof.
  intros Hpid Hq. unfold getWindowCount. rewrite Hq.
  destruct (Z.leb_spec pid 0); [lia |].
  rewrite getWindowCount_loop. lia.
Qed.

Lemma getWindowCount_nonneg (ws : WindowServer) (pid : Z) :
  0 <= getWindowCount ws pid.
Proof.
  unfold getWindowCount. destruct (pid <=? 0); [lia |].
  destruct (CGWindowListCopyWindowInfo ws _); [lia |].
  rewrite getWindowCount_loop. lia.
Qed.

Lemma detectScreenEvasion_nonneg (ws : WindowServer) (pid : Z) :
  0 <= detectScreenEvasion ws pid.
Proof.
  unfold detectScreenEvasion. destruct (pid <=? 0); [lia |].
  destruct (CGWindowListCopyWindowInfo ws _); [lia |].
  rewrite detectScreenEvasion_loop. lia.
Qed.

Lemma detectElevatedLayers_nonneg (ws : WindowServer) (pid : Z) :
  0 <= detectElevatedLayers ws pid.
Proof.
  unfold detectElevatedLayers. destruct (pid <=? 0); [lia |].
  destruct (CGWindowListCopyWindowInfo ws _); [lia |].
  rewrite detectElevatedLayers_loop. lia.
Qed.

(** The counters are C [int]s, modelled without wrap-around: they stay
    within the length of the window list (twice for the evasion score), so
    they fit an [int] for every list shorter than 2^30. *)
Lemma conditions_satisfied_le_2 (w : CFWindow) :
  (conditions_satisfied w <= 2)%nat.
Proof.
  unfold conditions_satisfied.
  destruct (decide (geometry_implausible w)), (decide (capture_excluded w)); lia.
Qed.

Lemma sum_conditions_le (windows : list CFWindow) :
  (sum_list (conditions_satisfied <$> windows) <= 2 * length windows)%nat.
Proof.
  induction windows as [| w windows IH]; [simpl; lia |].
  rewrite fmap_cons.
  change (sum_list (?x :: ?l)) with (x + sum_list l)%nat.
  pose proof (conditions_satisfied_le_2 w). simpl length. lia.
Qed.

Lemma window_metrics_fit_int (ws : WindowServer) (pid : Z) :
  (forall option windows,
      CGWindowListCopyWindowInfo ws option = Ptr windows ->
      Z.of_nat (length windows) < 2 ^ 30) ->
  getWindowCount ws pid < 2 ^ 31
  /\ detectScreenEvasion ws pid < 2 ^ 31
  /\ detectElevatedLayers ws pid < 2 ^ 31.
Proof.
  intros Hshort.
  unfold getWindowCount, detectScreenEvasion, detectElevatedLayers.
  destruct (pid <=? 0); [lia |].
  repeat split.
  - destruct (CGWindowListCopyWindowInfo ws kCGWindowListOptionOnScreenOnly)
      as [| windows] eqn:E; [lia |].
    rewrite getWindowCount_loop. specialize (Hshort _ _ E).
    pose proof (length_filter (owner_is pid) windows). lia.
  - destruct (CGWindowListCopyWindowInfo ws kCGWindowListOptionAll)
      as [| windows] eqn:E; [lia |].
    rewrite detectScreenEvasion_loop. specialize (Hshort _ _ E).
    pose proof (sum_conditions_le (filter (owner_is pid) windows)).
    pose proof (length_filter (owner_is pid) windows). lia.
  - destruct (CGWindowListCopyWindowInfo ws kCGWindowListOptionAll)
      as [| windows] eqn:E; [lia |].
    rewrite detectElevatedLayers_loop. specialize (Hshort _ _ E).
    pose proof (length_filter (fun w => owner_is pid w /\ layer_exceeds 2 w)
                  windows). lia.
Qed.

(** ** The window server unavailable *)

(** C8, as amended. When the window list queries return nothing,
    [getWindowCount], [detectScreenEvasion] and [detectElevatedLayers]
    return 0 for every pid, and [getWindowProperties], for a positive pid
    and a structure to fill, sets the four counts to 0 and returns
    [BRIDGE_ERROR_SYSTEM_CALL] (-4). *)
Theorem window_server_unavailable :
  forall (ws : WindowServer) (pid : Z),
    (forall option, CGWindowListCopyWindowInfo ws option = NULL) ->
    getWindowCount ws pid = 0
    /\ detectScreenEvasion ws pid = 0
    /\ detectElevatedLayers ws pid = 0
    /\ (forall properties : WindowProperties.t,
          0 < pid ->
          getWindowProperties ws pid (Ptr properties)
          = (BRIDGE_ERROR_SYSTEM_CALL, Ptr (WindowProperties.Make 0 0 0 0))).
Proof.
  intros ws pid Hnull.
  assert (Hc : getWindowCount ws pid = 0).
  { unfold getWindowCount. rewrite Hnull. destruct (pid <=? 0); reflexivity. }
  assert (He : detectScreenEvasion ws pid = 0).
  { unfold detectScreenEvasion. rewrite Hnull. destruct (pid <=? 0); reflexivity. }
  assert (Hl : detectElevatedLayers ws pid = 0).
  { unfold detectElevatedLayers. rewrite Hnull. destruct (pid <=? 0); reflexivity. }
  repeat split; try assumption.
  intros properties Hpid. unfold getWindowProperties.
  destruct (Z.leb_spec pid 0); [lia |].
  rewrite Hnull, Hc, He, Hl. reflexivity.
Qed.

Lemma window_server_unavailable_witness :
  getWindowCount (window_server_of NULL NULL) 7 = 0
  /\ detectScreenEvasion (window_server_of NULL NULL) 7 = 0
  /\ detectElevatedLayers (window_server_of NULL NULL) 7 = 0
  /\ (forall properties : WindowProperties.t,
        0 < 7 ->
        getWindowProperties (window_server_of NULL NULL) 7 (Ptr properties)
        = (BRIDGE_ERROR_SYSTEM_CALL, Ptr (WindowProperties.Make 0 0 0 0))).
Proof.
  apply (window_server_unavailable (window_server_of NULL NULL) 7).
  intros option. destruct option; reflexivity.
Defined.

(** C8 as stated fails: with no window list, [getWindowProperties] reports
    an error, not an empty result. *)
Lemma getWindowProperties_unavailable_is_an_error :
  ~ (forall (ws : WindowServer) (pid : Z) (properties : WindowProperties.t),
        (forall option, CGWindowListCopyWindowInfo ws option = NULL) ->
        getWindowCount ws pid = 0
        /\ detectScreenEvasion ws pid = 0
        /\ detectElevatedLayers ws pid = 0
        /\ 0 <= fst (getWindowProperties ws pid (Ptr properties))).
Proof.
  intros Hclaim.
  destruct (Hclaim (window_server_of NULL NULL) 7 (WindowProperties.Make 0 0 0 0))
    as (_ & _ & _ & Hstatus).
  - intros option. destruct option; reflexivity.
  - vm_compute in Hstatus. apply Hstatus. reflexivity.
Qed.

(** ** A pid that is not positive *)

(** C10. For every pid at most 0, [getWindowCount], [detectScreenEvasion]
    and [detectElevatedLayers] return 0, which is what they return for a
    process that owns no window, and no error code; [getWindowProperties],
    given a structure to fill, returns [BRIDGE_ERROR_INVALID_PARAMETER] (-2)
    and leaves the structure as it was. *)
Theorem nonpositive_pid_window_metrics :
  forall (ws : WindowServer) (pid : Z),
    pid <= 0 ->
    getWindowCount ws pid = 0
    /\ detectScreenEvasion ws pid = 0
    /\ detectElevatedLayers ws pid = 0
    /\ (forall properties : WindowProperties.t,
          getWindowProperties ws pid (Ptr properties)
          = (BRIDGE_ERROR_INVALID_PARAMETER, Ptr properties))
    /\ (forall (ws' : WindowServer) (pid' : Z),
          0 < pid' ->
          (forall option windows,
              CGWindowListCopyWindowInfo ws' option = Ptr windows ->
              filter (owner_is pid') windows = []) ->
          getWindowCount ws' pid' = getWindowCount ws pid
          /\ detectScreenEvasion ws' pid' = detectScreenEvasion ws pid
          /\ detectElevatedLayers ws' pid' = detectElevatedLayers ws pid).
Proof.
  intros ws pid Hpid.
  assert (Hc : getWindowCount ws pid = 0).
  { unfold getWindowCount. destruct (Z.leb_spec pid 0); [reflexivity | lia]. }
  assert (He : detectScreenEvasion ws pid = 0).
  { unfold detectScreenEvasion. destruct (Z.leb_spec pid 0); [reflexivity | lia]. }
  assert (Hl : detectElevatedLayers ws pid = 0).
  { unfold detectElevatedLayers. destruct (Z.leb_spec pid 0); [reflexivity | lia]. }
  split; [exact Hc |]. split; [exact He |]. split; [exact Hl |]. split.
  - intros properties. unfold getWindowProperties.
    destruct (Z.leb_spec pid 0); [reflexivity | lia].
  - intros ws' pid' Hpid' Hnone. rewrite Hc, He, Hl.
    unfold getWindowCount, detectScreenEvasion, detectElevatedLayers.
    destruct (Z.leb_spec pid' 0); [lia |].
    repeat split.
    + destruct (CGWindowListCopyWindowInfo ws' kCGWindowListOptionOnScreenOnly)
        as [| windows] eqn:E; [reflexivity |].
      rewrite getWindowCount_loop, (Hnone _ _ E). reflexivity.
    + destruct (CGWindowListCopyWindowInfo ws' kCGWindowListOptionAll)
        as [| windows] eqn:E; [reflexivity |].
      rewrite detectScreenEvasion_loop, (Hnone _ _ E). reflexivity.
    + destruct (CGWindowListCopyWindowInfo ws' kCGWindowListOptionAll)
        as [| windows] eqn:E; [reflexivity |].
      rewrite detectElevatedLayers_loop.
      assert (Hsub : filter (fun w => owner_is pid' w /\ layer_exceeds 2 w) windows = []).
      { specialize (Hnone _ _ E). clear E.
        induction windows as [| w windows IH]; [reflexivity |].
        rewrite filter_cons in Hnone. rewrite filter_cons.
        destruct (decide (owner_is pid' w)); [discriminate |].
        rewrite decide_False by tauto. apply IH. exact Hnone. }
      rewrite Hsub. reflexivity.
Qed.

Lemma nonpositive_pid_window_metrics_witness :
  getWindowCount
    (window_server_of (Ptr [window_at 0 0 0 800 600 (Some 0) (Some 3)])
                      (Ptr [window_at 0 0 0 800 600 (Some 0) (Some 3)])) 0 = 0
  /\ getWindowProperties
       (window_server_of (Ptr [window_at 0 0 0 800 600 (Some 0) (Some 3)])
                         (Ptr [window_at 0 0 0 800 600 (Some 0) (Some 3)])) 0
       (Ptr (WindowProperties.Make 5 6 7 8))
     = (BRIDGE_ERROR_INVALID_PARAMETER, Ptr (WindowProperties.Make 5 6 7 8)).
Proof.
  pose proof (nonpositive_pid_window_metrics
                (window_server_of
                   (Ptr [window_at 0 0 0 800 600 (Some 0) (Some 3)])
                   (Ptr [window_at 0 0 0 800 600 (Some 0) (Some 3)])) 0
                ltac:(lia)) as (Hc & _ & _ & Hp & _).
  split; [exact Hc | apply Hp].
Defined.

(** ** Enumeration *)

(** One turn of the enumeration loop: an entry that is not kept leaves
    [valid_count] as it is, a kept one stores its record at [valid_count]
    and moves on. *)
Lemma getAllProcesses_body_spec (os : Darwin) (processes : process_array)
    (valid_count : nat) (entry : kinfo_proc) :
  exists processes',
    length processes' = length processes
    /\ take valid_count processes' = take valid_count processes
    /\ getAllProcesses_body os (processes, valid_count) entry
       = if decide (kept os entry)
         then (<[valid_count := Some (record_of os (p_pid entry))]> processes',
               S valid_count)
         else (processes', valid_count).
Proof.
  unfold getAllProcesses_body.
  destruct (decide (kept os entry)) as [Hk | Hk];
    unfold kept, resolves_name in Hk.
  - destruct Hk as [Hpid Hn].
    destruct (Z.leb_spec (p_pid entry) 0) as [Hle | _]; [lia |].
    cbn [SystemProcessInfo.name SystemProcessInfo.path].
    exists (<[valid_count := Some (SystemProcessInfo.Make (p_pid entry)
                                     EmptyString EmptyString 0 0 0 0)]> processes).
    rewrite length_insert, take_insert_ge by lia.
    split; [reflexivity |]. split; [reflexivity |].
    unfold record_of.
    destruct (getProcessName os (p_pid entry) (Ptr EmptyString)
                (PROC_PIDPATHINFO_MAXSIZE os)) as [named name].
    cbn [fst snd] in *. subst named. cbn [Z.eqb BRIDGE_SUCCESS].
    destruct (getProcessPath os (p_pid entry) (Ptr EmptyString)
                (PROC_PIDPATHINFO_MAXSIZE os)) as [pathed path].
    cbn [snd]. do 4 f_equal.
    destruct (decide (0 < detectScreenEvasion (window_server os) (p_pid entry)
                      \/ 0 < detectElevatedLayers (window_server os) (p_pid entry)))
      as [H | H].
    + destruct H as [H | H]; apply Z.ltb_lt in H; rewrite H;
        [reflexivity | rewrite orb_true_r; reflexivity].
    + destruct (Z.ltb_spec 0 (detectScreenEvasion (window_server os) (p_pid entry)));
        [tauto |].
      destruct (Z.ltb_spec 0 (detectElevatedLayers (window_server os) (p_pid entry)));
        [tauto | reflexivity].
  - destruct (Z.leb_spec (p_pid entry) 0) as [Hle | Hpid].
    + exists processes. auto.
    + cbn [SystemProcessInfo.name SystemProcessInfo.path].
      exists (<[valid_count := Some (SystemProcessInfo.Make (p_pid entry)
                                       EmptyString EmptyString 0 0 0 0)]> processes).
      rewrite length_insert, take_insert_ge by lia.
      split; [reflexivity |]. split; [reflexivity |].
      destruct (getProcessName os (p_pid entry) (Ptr EmptyString)
                  (PROC_PIDPATHINFO_MAXSIZE os)) as [named name].
      cbn [fst] in Hk.
      destruct (Z.eqb_spec named BRIDGE_SUCCESS); [tauto | reflexivity].
Qed.

(** The loop as a whole: the first [valid_count] slots hold the records of
    the kept entries, in the order of the process table. *)
Lemma getAllProcesses_loop (os : Darwin) (entries : list kinfo_proc) :
  forall (processes : process_array) (valid_count : nat),
    (valid_count + length entries <= length processes)%nat ->
    let final :=
      for_each entries (getAllProcesses_body os) (processes, valid_count) in
    snd final = (valid_count + length (filter (kept os) entries))%nat
    /\ length (fst final) = length processes
    /\ take (snd final) (fst final)
       = take valid_count processes
         ++ ((fun entry => Some (record_of os (p_pid entry)))
               <$> filter (kept os) entries).
Proof.
  induction entries as [| entry entries IH]; intros processes valid_count Hroom.
  - cbn. rewrite Nat.add_0_r, app_nil_r. auto.
  - cbn zeta. rewrite for_each_cons.
    destruct (getAllProcesses_body_spec os processes valid_count entry)
      as (processes' & Hlen & Htake & ->).
    cbn [length] in Hroom. rewrite filter_cons.
    destruct (decide (kept os entry)) as [Hk | Hk].
    + specialize (IH (<[valid_count := Some (record_of os (p_pid entry))]> processes')
                     (S valid_count)).
      rewrite length_insert in IH. specialize (IH ltac:(lia)).
      cbn zeta in IH. destruct IH as (Hn & Hl & Ht).
      rewrite Ht, Hn, Hl. cbn [length]. split; [lia |]. split; [lia |].
      rewrite fmap_cons.
      rewrite (take_S_r _ _ (Some (record_of os (p_pid entry)))).
      * rewrite take_insert_ge by lia. rewrite Htake, <- app_assoc. reflexivity.
      * apply list_lookup_insert_eq. lia.
    + specialize (IH processes' valid_count ltac:(lia)).
      cbn zeta in IH. destruct IH as (Hn & Hl & Ht).
      rewrite Ht, Hn, Hl, Htake. split; [lia |]. split; [lia | reflexivity].
Qed.

(** Closes a goal whose hypothesis says that an error status is a count. *)
Ltac error_status :=
  cbn [fst];
  unfold BRIDGE_ERROR_NULL_POINTER, BRIDGE_ERROR_INVALID_PARAMETER,
    BRIDGE_ERROR_MEMORY_ALLOCATION, BRIDGE_ERROR_SYSTEM_CALL,
    BRIDGE_ERROR_FILE_ACCESS, BRIDGE_SUCCESS in *;
  first [lia | congruence | discriminate].

(** A successful call hands over exactly the records of the kept entries,
    and returns their number. *)
Lemma getAllProcesses_surfaced (os : Darwin)
    (processes : pointer (pointer process_array)) :
  0 <= fst (getAllProcesses os processes) ->
  surfaced (getAllProcesses os processes)
  = ((fun entry => Some (record_of os (p_pid entry)))
       <$> filter (kept os) (visited os))
  /\ fst (getAllProcesses os processes)
     = Z.of_nat (length (filter (kept os) (visited os))).
Proof.
  unfold getAllProcesses, visited.
  destruct processes as [| old]; [error_status |].
  destruct (negb (pthread_mutex_lock os =? 0)); [error_status |].
  destruct (sysctl_size os) as [sized size].
  destruct (negb (sized =? 0)); [error_status |].
  destruct (size =? 0); [error_status |].
  destruct (negb (malloc_proc_list os)); [error_status |].
  destruct (sysctl_procs os) as [fetched proc_list]. cbn [snd].
  destruct (negb (fetched =? 0)); [error_status |].
  set (proc_count := int_of_size_t (Z.of_nat (length proc_list))).
  destruct (proc_count <=? 0); [error_status |].
  destruct (negb (malloc_processes os)); [error_status |].
  intros _.
  pose proof (getAllProcesses_loop os (take (Z.to_nat proc_count) proc_list)
                (replicate (Z.to_nat proc_count) None) 0) as Hloop.
  rewrite length_replicate, length_take in Hloop.
  specialize (Hloop ltac:(lia)). cbn zeta in Hloop.
  destruct (for_each (take (Z.to_nat proc_count) proc_list)
              (getAllProcesses_body os)
              (replicate (Z.to_nat proc_count) None, 0%nat))
    as [array valid_count].
  cbn [fst snd] in Hloop. destruct Hloop as (Hn & _ & Ht).
  unfold surfaced. cbn [fst]. rewrite Nat2Z.id, Ht, Hn.
  split; [reflexivity | f_equal].
Qed.

Example getAllProcesses_sample :
  getAllProcesses sample_os (Ptr NULL)
  = (2, Ptr (Ptr [ Some (SystemProcessInfo.Make 7 "proc" "/bin/proc" 1 1 2 1);
                   Some (SystemProcessInfo.Make 9 "proc" "" 1 0 0 0);
                   None; None ])).
Proof. reflexivity. Qed.

Lemma record_of_invariants (os : Darwin) (pid : Z) :
  0 < pid ->
  let p := record_of os pid in
  0 < SystemProcessInfo.pid p
  /\ 0 <= SystemProcessInfo.windowCount p
  /\ 0 <= SystemProcessInfo.screenEvasionCount p
  /\ 0 <= SystemProcessInfo.elevatedLayerCount p
  /\ (SystemProcessInfo.suspiciousWindowCount p = 0
      \/ SystemProcessInfo.suspiciousWindowCount p = 1).
Proof.
  intros Hpid. cbn.
  pose proof (getWindowCount_nonneg (window_server os) pid).
  pose proof (detectScreenEvasion_nonneg (window_server os) pid).
  pose proof (detectElevatedLayers_nonneg (window_server os) pid).
  repeat split; try assumption.
  destruct (decide _); [right | left]; reflexivity.
Qed.

(** Every record handed over is the record of a kept entry. *)
Lemma surfaced_records (os : Darwin)
    (processes : pointer (pointer process_array)) (slot : option SystemProcessInfo.t) :
  0 <= fst (getAllProcesses os processes) ->
  slot ∈ surfaced (getAllProcesses os processes) ->
  exists entry,
    entry ∈ visited os /\ kept os entry
    /\ slot = Some (record_of os (p_pid entry)).
Proof.
  intros Hok Hin.
  destruct (getAllProcesses_surfaced os processes Hok) as [Hs _].
  rewrite Hs in Hin. apply list_elem_of_fmap in Hin.
  destruct Hin as (entry & -> & Hin). apply list_elem_of_filter in Hin.
  exists entry. tauto.
Qed.

(** C1. After every successful call of [getAllProcesses] (a count is
    returned, not an error), the collection handed over has that many
    records, and each of them has pid > 0, windowCount >= 0,
    screenEvasionCount >= 0, elevatedLayerCount >= 0 and a
    suspiciousWindowCount of 0 or 1. *)
Theorem getAllProcesses_record_invariants :
  forall (os : Darwin) (processes : pointer (pointer process_array)),
    0 <= fst (getAllProcesses os processes) ->
    Z.of_nat (length (surfaced (getAllProcesses os processes)))
    = fst (getAllProcesses os processes)
    /\ Forall
         (fun slot =>
            exists p : SystemProcessInfo.t,
              slot = Some p
              /\ 0 < SystemProcessInfo.pid p
              /\ 0 <= SystemProcessInfo.windowCount p
              /\ 0 <= SystemProcessInfo.screenEvasionCount p
              /\ 0 <= SystemProcessInfo.elevatedLayerCount p
              /\ (SystemProcessInfo.suspiciousWindowCount p = 0
                  \/ SystemProcessInfo.suspiciousWindowCount p = 1))
         (surfaced (getAllProcesses os processes)).
Proof.
  intros os processes Hok. split.
  - destruct (getAllProcesses_surfaced os processes Hok) as [Hs Hn].
    rewrite Hs, Hn, length_fmap. reflexivity.
  - apply Forall_forall. intros slot Hin.
    destruct (surfaced_records os processes slot Hok Hin)
      as (entry & _ & [Hpid _] & ->).
    exists (record_of os (p_pid entry)). split; [reflexivity |].
    apply record_of_invariants. exact Hpid.
Qed.

Lemma getAllProcesses_record_invariants_witness :
  Z.of_nat (length (surfaced (getAllProcesses sample_os (Ptr NULL))))
  = fst (getAllProcesses sample_os (Ptr NULL))
  /\ Forall
       (fun slot =>
          exists p : SystemProcessInfo.t,
            slot = Some p
            /\ 0 < SystemProcessInfo.pid p
            /\ 0 <= SystemProcessInfo.windowCount p
            /\ 0 <= SystemProcessInfo.screenEvasionCount p
            /\ 0 <= SystemProcessInfo.elevatedLayerCount p
            /\ (SystemProcessInfo.suspiciousWindowCount p = 0
                \/ SystemProcessInfo.suspiciousWindowCount p = 1))
       (surfaced (getAllProcesses sample_os (Ptr NULL))).
Proof.
  apply (getAllProcesses_record_invariants sample_os (Ptr NULL)).
  vm_compute. discriminate.
Defined.

(** C2. For every record [p] that a successful enumeration hands over,
    suspiciousWindowCount is 1 exactly when screenEvasionCount > 0 or
    elevatedLayerCount > 0, and 0 otherwise. *)
Theorem suspiciousWindowCount_policy :
  forall (os : Darwin) (processes : pointer (pointer process_array))
         (p : SystemProcessInfo.t),
    0 <= fst (getAllProcesses os processes) ->
    Some p ∈ surfaced (getAllProcesses os processes) ->
    (SystemProcessInfo.suspiciousWindowCount p = 1
     <-> 0 < SystemProcessInfo.screenEvasionCount p
         \/ 0 < SystemProcessInfo.elevatedLayerCount p)
    /\ (SystemProcessInfo.suspiciousWindowCount p = 0
        <-> ~ (0 < SystemProcessInfo.screenEvasionCount p
               \/ 0 < SystemProcessInfo.elevatedLayerCount p)).
Proof.
  intros os processes p Hok Hin.
  destruct (surfaced_records os processes _ Hok Hin) as (entry & _ & _ & [= ->]).
  cbn. destruct (decide _) as [H | H]; split; split; intros; try tauto; lia.
Qed.

Lemma suspiciousWindowCount_policy_witness :
  (SystemProcessInfo.suspiciousWindowCount
     (SystemProcessInfo.Make 7 "proc" "/bin/proc" 1 1 2 1) = 1
   <-> 0 < SystemProcessInfo.screenEvasionCount
             (SystemProcessInfo.Make 7 "proc" "/bin/proc" 1 1 2 1)
       \/ 0 < SystemProcessInfo.elevatedLayerCount
                (SystemProcessInfo.Make 7 "proc" "/bin/proc" 1 1 2 1))
  /\ (SystemProcessInfo.suspiciousWindowCount
        (SystemProcessInfo.Make 7 "proc" "/bin/proc" 1 1 2 1) = 0
      <-> ~ (0 < SystemProcessInfo.screenEvasionCount
                   (SystemProcessInfo.Make 7 "proc" "/bin/proc" 1 1 2 1)
             \/ 0 < SystemProcessInfo.elevatedLayerCount
                      (SystemProcessInfo.Make 7 "proc" "/bin/proc" 1 1 2 1))).
Proof.
  apply (suspiciousWindowCount_policy sample_os (Ptr NULL)).
  - vm_compute. discriminate.
  - rewrite getAllProcesses_sample. cbn. apply list_elem_of_here.
Defined.

(** ** Names and paths *)

(** What libproc has to answer for a name to resolve. *)
Lemma resolves_name_iff (os : Darwin) (pid : Z) :
  resolves_name os pid
  <-> PROC_PIDPATHINFO_MAXSIZE os <> 0 /\ 0 < pid
      /\ 0 < fst (proc_pidinfo os pid).
Proof.
  unfold resolves_name, getProcessName.
  destruct (Z.eqb_spec (PROC_PIDPATHINFO_MAXSIZE os) 0) as [Hz | Hz].
  { split; [error_status | tauto]. }
  destruct (Z.leb_spec pid 0).
  { split; [error_status | lia]. }
  destruct (proc_pidinfo os pid) as [written proc_info]. cbn [fst].
  destruct (Z.leb_spec written 0).
  - split; [error_status | lia].
  - split; [intros _; repeat split; [exact Hz | lia | lia] | reflexivity].
Qed.

(** A path that does not resolve leaves the empty string in the buffer. *)
Lemma unresolved_path_is_empty (os : Darwin) (pid : Z) :
  ~ resolves_path os pid ->
  snd (getProcessPath os pid (Ptr EmptyString) (PROC_PIDPATHINFO_MAXSIZE os))
  = Ptr EmptyString.
Proof.
  unfold resolves_path, getProcessPath.
  destruct (PROC_PIDPATHINFO_MAXSIZE os =? 0); [reflexivity |].
  destruct (pid <=? 0); [reflexivity |].
  destruct (UINT32_MAX <? PROC_PIDPATHINFO_MAXSIZE os); [reflexivity |].
  destruct (proc_pidpath os pid (PROC_PIDPATHINFO_MAXSIZE os)) as [written found].
  destruct (written <=? 0); [reflexivity |].
  cbn [fst]. intros H. contradiction H. reflexivity.
Qed.

(** C7. In a successful enumeration, a process whose name does not resolve
    has no record in the result, whatever its name would be; a process of
    the table whose name resolves and whose path does not has a record, and
    every record of such a process has the empty path. *)
Theorem name_failure_drops_path_failure_keeps :
  forall (os : Darwin) (processes : pointer (pointer process_array)),
    0 <= fst (getAllProcesses os processes) ->
    (forall (pid : Z) (p : SystemProcessInfo.t),
        ~ resolves_name os pid ->
        Some p ∈ surfaced (getAllProcesses os processes) ->
        SystemProcessInfo.pid p <> pid)
    /\ (forall entry : kinfo_proc,
          entry ∈ visited os ->
          resolves_name os (p_pid entry) ->
          ~ resolves_path os (p_pid entry) ->
          exists p : SystemProcessInfo.t,
            Some p ∈ surfaced (getAllProcesses os processes)
            /\ SystemProcessInfo.pid p = p_pid entry
            /\ SystemProcessInfo.path p = EmptyString)
    /\ (forall p : SystemProcessInfo.t,
          Some p ∈ surfaced (getAllProcesses os processes) ->
          ~ resolves_path os (SystemProcessInfo.pid p) ->
          SystemProcessInfo.path p = EmptyString).
Proof.
  intros os processes Hok. split; [| split].
  - intros pid p Hfail Hin.
    destruct (surfaced_records os processes _ Hok Hin)
      as (entry & _ & [_ Hname] & [= ->]).
    cbn. intros Heq. rewrite Heq in Hname. contradiction.
  - intros entry Hin Hname Hpath.
    exists (record_of os (p_pid entry)).
    destruct (getAllProcesses_surfaced os processes Hok) as [-> _].
    split; [| split].
    + apply list_elem_of_fmap. exists entry. split; [reflexivity |].
      apply list_elem_of_filter. split; [| exact Hin].
      split; [| exact Hname]. apply resolves_name_iff in Hname. tauto.
    + reflexivity.
    + unfold record_of. cbn [SystemProcessInfo.path].
      rewrite unresolved_path_is_empty by exact Hpath. reflexivity.
  - intros p Hin Hpath.
    destruct (surfaced_records os processes _ Hok Hin)
      as (entry & _ & _ & [= ->]).
    unfold record_of in *. cbn [SystemProcessInfo.path SystemProcessInfo.pid] in *.
    rewrite unresolved_path_is_empty by exact Hpath. reflexivity.
Qed.

Lemma name_failure_drops_path_failure_keeps_witness :
  (forall p : SystemProcessInfo.t,
      Some p ∈ surfaced (getAllProcesses sample_os (Ptr NULL)) ->
      SystemProcessInfo.pid p <> 5)
  /\ (exists p : SystemProcessInfo.t,
        Some p ∈ surfaced (getAllProcesses sample_os (Ptr NULL))
        /\ SystemProcessInfo.pid p = 9
        /\ SystemProcessInfo.path p = EmptyString).
Proof.
  destruct (name_failure_drops_path_failure_keeps sample_os (Ptr NULL))
    as (Hdrop & Hkeep & _).
  - vm_compute. discriminate.
  - split.
    + intros p. apply Hdrop. vm_compute. discriminate.
    + apply (Hkeep {| p_pid := 9 |}).
      * apply list_elem_of_In. vm_compute. tauto.
      * vm_compute. reflexivity.
      * vm_compute. discriminate.
Defined.

(** On the sample host: pid 5 has no name and no record, pid 9 has a name,
    no path, and a record with the empty path. *)
Example sample_names_and_paths :
  ~ resolves_name sample_os 5
  /\ resolves_name sample_os 9 /\ ~ resolves_path sample_os 9
  /\ surfaced (getAllProcesses sample_os (Ptr NULL))
     = [ Some (SystemProcessInfo.Make 7 "proc" "/bin/proc" 1 1 2 1);
         Some (SystemProcessInfo.Make 9 "proc" "" 1 0 0 0) ].
Proof.
  repeat split; try reflexivity; vm_compute; discriminate.
Qed.

(** ** The digest *)

Lemma CC_SHA256_Update_app (c : CC_SHA256_CTX) (a b : list byte) :
  snd (CC_SHA256_Update (snd (CC_SHA256_Update c a)) b)
  = snd (CC_SHA256_Update c (a ++ b)).
Proof.
  unfold CC_SHA256_Update. cbn [snd count hash wbuf].
  rewrite map_app, fold_left_app, length_app, Nat2Z.inj_add, Z.add_assoc.
  rewrite <- surjective_pairing. reflexivity.
Qed.

Lemma CC_SHA256_Update_nil (c : CC_SHA256_CTX) :
  snd (CC_SHA256_Update c []) = c.
Proof. destruct c. unfold CC_SHA256_Update. cbn. rewrite Z.add_0_r. reflexivity. Qed.

Lemma CC_SHA256_Update_returns_1 (c : CC_SHA256_CTX) (data : list byte) :
  CC_SHA256_Update c data = (1, snd (CC_SHA256_Update c data)).
Proof. reflexivity. Qed.

(** The read loop takes the whole of the readable bytes, whatever the size
    of the buffer, and ends: it never returns a status by itself. *)
Lemma read_loop_spec (nmemb : nat) (file : FILE) (c : CC_SHA256_CTX) :
  (0 < nmemb)%nat -> Z.of_nat nmemb <= UINT32_MAX ->
  exists file',
    read_loop nmemb file c = inr (file', snd (CC_SHA256_Update c (readable file)))
    /\ readable file' = [] /\ read_error file' = read_error file.
Proof.
  intros Hn Hmax. funelim (read_loop nmemb file c).
  - destruct (Z.ltb_spec UINT32_MAX (Z.of_nat (length (take nmemb (readable file)))))
      as [Hbig | _].
    { rewrite length_take in Hbig. lia. }
    rewrite CC_SHA256_Update_returns_1. cbn [Z.eqb].
    match goal with
    | IH : Z -> forall c' : CC_SHA256_CTX, _ |- _ =>
        destruct (IH 1 (snd (CC_SHA256_Update sha256Context
                               (take nmemb (readable file)))) Hn Hmax)
          as (file' & Hrun & Hnil & Herr)
    end.
    exists file'. cbn [readable read_error] in *.
    rewrite Hrun, CC_SHA256_Update_app, take_drop. auto.
  - match goal with
    | Hzero : (0 <? _) = false |- _ =>
        pose proof (proj1 (Z.ltb_ge _ _) Hzero) as Hlen;
        rewrite length_take in Hlen
    end.
    assert (Hempty : readable file = []).
    { apply length_zero_iff_nil. lia. }
    exists (File (fseek_end file) (ftell_end file) (fseek_set file) []
                 (read_error file)).
    rewrite Hempty, drop_nil, CC_SHA256_Update_nil. auto.
Qed.

Lemma digest_length (c : CC_SHA256_CTX) :
  length (snd (CC_SHA256_Final c)) = 32%nat.
Proof. reflexivity. Qed.

Lemma digest_bytes_range (c : CC_SHA256_CTX) :
  Forall (fun b => 0 <= b < 256) (snd (CC_SHA256_Final c)).
Proof.
  unfold CC_SHA256_Final. cbn [snd].
  set (r := fst (fold_left absorb (padding c) (hash c, wbuf c))).
  unfold digest_bytes, be_bytes32. cbn [app].
  repeat (apply Forall_cons; split; [apply Z.mod_pos_bound; lia |]).
  apply Forall_nil. exact I.
Qed.

(** The digits [snprintf] writes are the lowercase hexadecimal ones. *)
Lemma hex_digit_lowercase (d : Z) :
  0 <= d < 16 ->
  hex_digit d = nth (Z.to_nat d) lowercase_hex_digits NUL
  /\ hex_digit d ∈ lowercase_hex_digits
  /\ hex_digit d <> NUL.
Proof.
  intros Hd.
  assert (Hcases : d = 0 \/ d = 1 \/ d = 2 \/ d = 3 \/ d = 4 \/ d = 5
                   \/ d = 6 \/ d = 7 \/ d = 8 \/ d = 9 \/ d = 10 \/ d = 11
                   \/ d = 12 \/ d = 13 \/ d = 14 \/ d = 15) by lia.
  repeat (destruct Hcases as [-> | Hcases]); try subst d;
    (split; [reflexivity | split; [| discriminate]]);
    apply list_elem_of_In; vm_compute; tauto.
Qed.

Lemma snprintf_02x_spec (b : Z) :
  0 <= b < 256 ->
  snprintf_02x b = (2, hex_pair b ++ [NUL])
  /\ Forall (fun c => c ∈ lowercase_hex_digits /\ c <> NUL) (hex_pair b).
Proof.
  intros Hb.
  assert (Hhi : 0 <= b / 16 < 16).
  { split; [apply Z.div_pos; lia | apply Z.div_lt_upper_bound; lia]. }
  assert (Hlo : 0 <= b mod 16 < 16) by (apply Z.mod_pos_bound; lia).
  destruct (hex_digit_lowercase _ Hhi) as (Eh & Hh & Nh).
  destruct (hex_digit_lowercase _ Hlo) as (El & Hl & Nl).
  unfold snprintf_02x, hex_pair. rewrite <- Eh, <- El. split; [reflexivity |].
  repeat (apply Forall_cons; split; [tauto |]). apply Forall_nil. exact I.
Qed.

Lemma store_cons (chars : list ascii) :
  forall (k : nat) (c : ascii) (buffer : list ascii),
    store (S k) chars (c :: buffer) = c :: store k chars buffer.
Proof.
  induction chars as [| x chars IH]; intros k c buffer; [reflexivity |].
  cbn [store]. change (<[S k := x]> (c :: buffer)) with (c :: <[k := x]> buffer).
  apply IH.
Qed.

Lemma store_app (chars pre buffer : list ascii) :
  store (length pre) chars (pre ++ buffer) = pre ++ store 0 chars buffer.
Proof.
  induction pre as [| c pre IH]; [reflexivity |].
  cbn [length app]. rewrite store_cons, IH. reflexivity.
Qed.

(** The conversion loop writes the digits of the bytes one pair after the
    other, and never fails. *)
Lemma hex_loop_spec (hash : list Z) :
  forall (i : nat) (pre rest : list ascii),
    Forall (fun b => 0 <= b < 256) hash ->
    length pre = (i * 2)%nat ->
    (2 * length hash < length rest)%nat ->
    exists tail,
      hex_loop hash i (pre ++ rest)
      = (BRIDGE_SUCCESS, pre ++ flat_map hex_pair hash ++ tail)
      /\ length tail = (length rest - 2 * length hash)%nat.
Proof.
  induction hash as [| b hash IH]; intros i pre rest Hrange Hpre Hroom.
  - exists rest. cbn. split; [reflexivity | lia].
  - apply Forall_cons in Hrange. destruct Hrange as [Hb Hrange].
    destruct (snprintf_02x_spec b Hb) as [Hprint _].
    cbn [hex_loop]. rewrite Hprint. cbn [Z.eqb negb Pos.eqb].
    destruct rest as [| r0 [| r1 [| r2 rest]]]; cbn [length] in Hroom; try lia.
    rewrite <- Hpre, store_app.
    change (store 0 (hex_pair b ++ [NUL]) (r0 :: r1 :: r2 :: rest))
      with (hex_pair b ++ NUL :: rest).
    rewrite app_assoc.
    destruct (IH (S i) (pre ++ hex_pair b) (NUL :: rest) Hrange) as (tail & Hrun & Hlen).
    + rewrite length_app, Hpre. cbn. lia.
    + cbn [length]. lia.
    + exists tail. rewrite Hrun. split.
      * rewrite <- !app_assoc. reflexivity.
      * rewrite Hlen. cbn [length]. lia.
Qed.

Lemma flat_map_hex_pair_length (hash : list Z) :
  length (flat_map hex_pair hash) = (2 * length hash)%nat.
Proof.
  induction hash as [| b hash IH]; [reflexivity |].
  cbn [flat_map]. rewrite length_app, IH. cbn [hex_pair length]. lia.
Qed.

Lemma flat_map_hex_pair_lowercase (hash : list Z) :
  Forall (fun b => 0 <= b < 256) hash ->
  Forall (fun c => c ∈ lowercase_hex_digits /\ c <> NUL) (flat_map hex_pair hash).
Proof.
  induction 1 as [| b hash Hb _ IH]; [apply Forall_nil; exact I |].
  cbn [flat_map]. apply Forall_app. split; [| exact IH].
  apply snprintf_02x_spec. exact Hb.
Qed.

Lemma c_string_app (s tail : list ascii) :
  Forall (fun c => c <> NUL) s -> c_string (s ++ NUL :: tail) = s.
Proof.
  induction 1 as [| c s Hc _ IH]; cbn [app c_string].
  - reflexivity.
  - destruct (Ascii.eqb_spec c NUL); [contradiction |]. rewrite IH. reflexivity.
Qed.

(** The buffer after the conversion: the 64 digits and the terminator, and
    beyond them what the caller had there. *)
Lemma store_digest_spec (c : CC_SHA256_CTX) (hashString : list ascii) :
  (65 <= length hashString)%nat ->
  let hash := snd (CC_SHA256_Final c) in
  fst (hex_loop hash 0 hashString) = BRIDGE_SUCCESS
  /\ exists tail,
       store_digest hash hashString = flat_map hex_pair hash ++ NUL :: tail
       /\ length (store_digest hash hashString) = length hashString.
Proof.
  intros Hroom hash. pose proof (digest_length c) as Hlen.
  pose proof (digest_bytes_range c) as Hrange. fold hash in Hlen, Hrange.
  destruct (hex_loop_spec hash 0 [] hashString Hrange eq_refl)
    as (tail & Hrun & Htail); [lia |].
  cbn [app] in Hrun. unfold store_digest. rewrite Hrun. cbn [fst snd].
  split; [reflexivity |].
  destruct tail as [| t tail]; [cbn [length] in Htail; lia |].
  exists tail.
  change (Z.to_nat (CC_SHA256_DIGEST_LENGTH * 2)) with 64%nat.
  rewrite insert_app_r_alt by (rewrite flat_map_hex_pair_length; lia).
  rewrite flat_map_hex_pair_length, Hlen. cbn [Nat.sub Nat.mul Nat.add].
  split; [reflexivity |].
  rewrite length_app, length_insert, flat_map_hex_pair_length, Htail. lia.
Qed.

(** [snprintf] returns 2 for every byte, so the conversion runs to its
    end whatever the buffer. *)
Lemma hex_loop_total (hash : list Z) :
  forall (i : nat) (hashString : list ascii),
    fst (hex_loop hash i hashString) = BRIDGE_SUCCESS.
Proof.
  induction hash as [| b hash IH]; intros i hashString; cbn [hex_loop].
  - reflexivity.
  - unfold snprintf_02x. cbn [Z.eqb negb Pos.eqb]. apply IH.
Qed.

Lemma bufferSize_fits :
  (0 < bufferSize)%nat /\ Z.of_nat bufferSize <= UINT32_MAX.
Proof.
  split; [apply Nat.ltb_lt | apply Z.leb_le]; vm_compute; reflexivity.
Qed.

Lemma CC_SHA256_Final_returns_1 (c : CC_SHA256_CTX) :
  CC_SHA256_Final c = (1, snd (CC_SHA256_Final c)).
Proof. reflexivity. Qed.

(** With a path that is not empty and a stated capacity of 65 or more, the
    outcome depends on the stream alone: the digest of all its bytes when
    every call on it succeeds, and [BRIDGE_ERROR_FILE_ACCESS] with the
    buffer untouched otherwise. *)
Lemma calculateFileSHA256_valid_args (fs : FileSystem) (path : string)
    (hashString : list ascii) (hashStringSize : Z) :
  path <> EmptyString -> 65 <= hashStringSize ->
  calculateFileSHA256 fs (Ptr path) (Ptr hashString) hashStringSize
  = match fopen_rb fs path with
    | NULL => (BRIDGE_ERROR_FILE_ACCESS, Ptr hashString)
    | Ptr file =>
        if decide (healthy file)
        then (BRIDGE_SUCCESS,
              Ptr (store_digest (SHA256 (readable file)) hashString))
        else (BRIDGE_ERROR_FILE_ACCESS, Ptr hashString)
    end.
Proof.
  intros Hpath Hsize. unfold calculateFileSHA256.
  destruct (Z.ltb_spec hashStringSize 65); [lia |].
  destruct path as [| ch path]; [contradiction |]. cbn [String.length Nat.eqb].
  destruct (fopen_rb fs (String ch path)) as [| file]; [reflexivity |].
  destruct (decide (healthy file)) as [Hh | Hh]; unfold healthy in Hh.
  - destruct Hh as (Hend & Htell & Hset & Herr).
    rewrite Hend, Hset. cbn [Z.eqb negb].
    destruct (Z.ltb_spec (ftell_end file) 0); [lia |].
    unfold CC_SHA256_Init. cbn [Z.eqb].
    destruct bufferSize_fits as [Hpos Hmax].
    destruct (read_loop_spec bufferSize file (Ctx 0 H256_init []) Hpos Hmax)
      as (file' & -> & Hnil & Herr').
    unfold ferror. rewrite Hnil, Herr', Herr.
    rewrite CC_SHA256_Final_returns_1. cbn [Z.eqb].
    unfold store_digest, SHA256, CC_SHA256_Init. cbn [snd].
    pose proof (hex_loop_total
                  (snd (CC_SHA256_Final
                          (snd (CC_SHA256_Update (Ctx 0 H256_init [])
                                  (readable file)))))
                  0 hashString) as Hdone.
    destruct (hex_loop _ 0 hashString) as [converted out'].
    cbn [fst snd] in *. subst converted. reflexivity.
  - destruct (Z.eqb_spec (fseek_end file) 0) as [Hend | _]; [| reflexivity].
    cbn [negb].
    destruct (Z.ltb_spec (ftell_end file) 0) as [| Htell]; [reflexivity |].
    destruct (Z.eqb_spec (fseek_set file) 0) as [Hset | _]; [| reflexivity].
    cbn [negb]. unfold CC_SHA256_Init. cbn [Z.eqb].
    destruct bufferSize_fits as [Hpos Hmax].
    destruct (read_loop_spec bufferSize file (Ctx 0 H256_init []) Hpos Hmax)
      as (file' & -> & Hnil & Herr').
    unfold ferror. rewrite Hnil, Herr'.
    destruct (read_error file) eqn:Herr; [reflexivity |].
    exfalso. apply Hh. repeat split; assumption.
Qed.

(** Whatever the arguments, a call that does not succeed leaves the
    caller's buffer as it was. *)
Lemma calculateFileSHA256_failure_writes_nothing (fs : FileSystem)
    (filePath : pointer string) (hashString : pointer (list ascii))
    (hashStringSize : Z) :
  fst (calculateFileSHA256 fs filePath hashString hashStringSize)
  <> BRIDGE_SUCCESS ->
  snd (calculateFileSHA256 fs filePath hashString hashStringSize) = hashString.
Proof.
  destruct filePath as [| path], hashString as [| out]; try reflexivity.
  destruct (Z.ltb_spec hashStringSize 65) as [Hsmall | Hsize].
  { unfold calculateFileSHA256.
    destruct (Z.ltb_spec hashStringSize 65); [reflexivity | lia]. }
  destruct path as [| ch path]; [unfold calculateFileSHA256;
    destruct (hashStringSize <? 65); reflexivity |].
  rewrite calculateFileSHA256_valid_args by (discriminate || lia).
  destruct (fopen_rb fs (String ch path)) as [| file]; [reflexivity |].
  destruct (decide (healthy file)); [| reflexivity].
  cbn [fst]. intros H. contradiction H. reflexivity.
Qed.

(** A call that succeeds was given a path, room for the digest and a
    healthy stream, and left the digest of the stream's bytes. *)
Lemma calculateFileSHA256_success (fs : FileSystem) (path : string)
    (out out' : list ascii) (size : Z) :
  calculateFileSHA256 fs (Ptr path) (Ptr out) size = (BRIDGE_SUCCESS, Ptr out') ->
  65 <= size
  /\ exists file,
       fopen_rb fs path = Ptr file /\ healthy file
       /\ out' = store_digest (SHA256 (readable file)) out.
Proof.
  intros Hcall.
  destruct (Z.ltb_spec size 65) as [Hsmall | Hsize].
  { unfold calculateFileSHA256 in Hcall.
    destruct (Z.ltb_spec size 65); [error_status | lia]. }
  destruct path as [| ch path].
  { unfold calculateFileSHA256 in Hcall.
    destruct (size <? 65); cbn in Hcall; error_status. }
  rewrite calculateFileSHA256_valid_args in Hcall by (discriminate || lia).
  split; [exact Hsize |].
  destruct (fopen_rb fs (String ch path)) as [| file]; [error_status |].
  destruct (decide (healthy file)) as [Hh | _]; [| error_status].
  exists file. injection Hcall as <-. auto.
Qed.

(** The digest string a successful call leaves in a buffer that has the
    capacity the caller states. *)
Lemma calculateFileSHA256_digest (fs : FileSystem) (path : string)
    (out out' : list ascii) (size : Z) :
  size <= Z.of_nat (length out) ->
  calculateFileSHA256 fs (Ptr path) (Ptr out) size = (BRIDGE_SUCCESS, Ptr out') ->
  exists file tail,
    fopen_rb fs path = Ptr file /\ healthy file
    /\ out' = digest_string (readable file) ++ NUL :: tail
    /\ c_string out' = digest_string (readable file)
    /\ length out' = length out.
Proof.
  intros Hcap Hcall.
  destruct (calculateFileSHA256_success _ _ _ _ _ Hcall)
    as (Hsize & file & Hopen & Hh & ->).
  unfold SHA256.
  destruct (store_digest_spec
              (snd (CC_SHA256_Update (snd CC_SHA256_Init) (readable file))) out)
    as (_ & tail & Hstore & Hlen); [lia |].
  exists file, tail. unfold digest_string, SHA256.
  rewrite Hstore.
  split; [exact Hopen |]. split; [exact Hh |]. split; [reflexivity |]. split.
  - apply c_string_app.
    eapply Forall_impl; [apply flat_map_hex_pair_lowercase, digest_bytes_range |].
    cbn. tauto.
  - rewrite <- Hstore. exact Hlen.
Qed.

Lemma digest_string_shape (content : list byte) :
  length (digest_string content) = 64%nat
  /\ Forall (fun c => c ∈ lowercase_hex_digits) (digest_string content).
Proof.
  unfold digest_string, SHA256. split.
  - rewrite flat_map_hex_pair_length, digest_length. reflexivity.
  - eapply Forall_impl; [apply flat_map_hex_pair_lowercase, digest_bytes_range |].
    cbn. tauto.
Qed.

Example SHA256_constants :
  length K256 = 64%nat
  /\ nth 0 K256 0 = 0x428a2f98 /\ nth 63 K256 0 = 0xc67178f2
  /\ rA H256_init = 0x6a09e667 /\ rH H256_init = 0x5be0cd19.
Proof. repeat split. Qed.

Example SHA256_known_answers :
  digest_string [] = sha256_empty_digest
  /\ digest_string ["a"%byte; "b"%byte; "c"%byte]
     = list_ascii_of_string
         "ba7816bf8f01cfea414140de5dae2223b00361a396177a9cb410ff61f20015ad".
Proof. split; vm_compute; reflexivity. Qed.

(** A file longer than the read buffer: two reads, 79 blocks. *)
Example calculateFileSHA256_5000 :
  calculateFileSHA256 sample_fs (Ptr "/5000"%string) (Ptr buffer65) 65
  = (BRIDGE_SUCCESS,
     Ptr (list_ascii_of_string
            "c526c6222044dab5674de9c4ac7f4566ebb5e4d8bf9d8ea34c9cc8a7cc3c869c"
          ++ [NUL])).
Proof. vm_compute. reflexivity. Qed.

(** C5, as amended. Every successful hash computation leaves in the
    caller's buffer a string of exactly 64 lowercase hexadecimal characters
    followed by the terminator, and for an empty file that string is
    e3b0c44298fc1c149afbf4c8996fb92427ae41e4649b934ca495991b7852b855, the
    SHA-256 digest of no bytes (64 characters, where the specification
    prints 63 of them). *)
Theorem successful_digest_is_64_lowercase_hex :
  forall (fs : FileSystem) (path : string) (out out' : list ascii) (size : Z),
    size <= Z.of_nat (length out) ->
    calculateFileSHA256 fs (Ptr path) (Ptr out) size = (BRIDGE_SUCCESS, Ptr out') ->
    length (c_string out') = 64%nat
    /\ Forall (fun c => c ∈ lowercase_hex_digits) (c_string out')
    /\ out' !! 64%nat = Some NUL
    /\ (forall file : FILE,
          fopen_rb fs path = Ptr file -> readable file = [] ->
          c_string out' = sha256_empty_digest).
Proof.
  intros fs path out out' size Hcap Hcall.
  destruct (calculateFileSHA256_digest _ _ _ _ _ Hcap Hcall)
    as (file & tail & Hopen & _ & Hout & Hstr & _).
  destruct (digest_string_shape (readable file)) as [Hlen Hhex].
  rewrite Hstr. split; [exact Hlen |]. split; [exact Hhex |]. split.
  - rewrite Hout, lookup_app_r by lia. rewrite Hlen. reflexivity.
  - intros file0 Hopen0 Hempty. rewrite Hopen in Hopen0.
    injection Hopen0 as <-. rewrite Hempty. apply SHA256_known_answers.
Qed.

Lemma successful_digest_is_64_lowercase_hex_witness :
  length (c_string (sha256_empty_digest ++ [NUL])) = 64%nat
  /\ Forall (fun c => c ∈ lowercase_hex_digits)
            (c_string (sha256_empty_digest ++ [NUL]))
  /\ (sha256_empty_digest ++ [NUL]) !! 64%nat = Some NUL
  /\ (forall file : FILE,
        fopen_rb sample_fs "/empty" = Ptr file -> readable file = [] ->
        c_string (sha256_empty_digest ++ [NUL]) = sha256_empty_digest).
Proof.
  apply (successful_digest_is_64_lowercase_hex
           sample_fs "/empty" buffer65 (sha256_empty_digest ++ [NUL]) 65).
  - vm_compute. discriminate.
  - vm_compute. reflexivity.
Defined.

(** C5 as stated fails on its second half: the string the specification
    prints for the empty file has 63 characters and is not what a
    successful call leaves, which has 64. *)
Lemma empty_file_digest_is_not_the_printed_one :
  fst (calculateFileSHA256 sample_fs (Ptr "/empty"%string) (Ptr buffer65) 65)
  = BRIDGE_SUCCESS
  /\ c_string
       (pointee_or
          (snd (calculateFileSHA256 sample_fs (Ptr "/empty"%string)
                  (Ptr buffer65) 65)) [])
     <> spec_empty_digest
  /\ length spec_empty_digest = 63%nat.
Proof.
  split; [vm_compute; reflexivity |]. split; [| reflexivity].
  vm_compute. discriminate.
Qed.

(** C6. Two runs of [calculateFileSHA256] over streams with the same
    bytes, whatever the file systems, the paths and the buffers, leave the
    same string of 64 characters when they succeed: the digest string of the
    bytes.  And they do succeed on a stream whose calls all succeed, given a
    path that is not empty and a capacity of at least 65. *)
Theorem identical_content_identical_digest :
  forall (fs1 fs2 : FileSystem) (path1 path2 : string)
         (file1 file2 : FILE) (out1 out2 : list ascii) (size1 size2 : Z),
    size1 <= Z.of_nat (length out1) ->
    size2 <= Z.of_nat (length out2) ->
    fopen_rb fs1 path1 = Ptr file1 ->
    fopen_rb fs2 path2 = Ptr file2 ->
    readable file1 = readable file2 ->
    (forall out1' out2' : list ascii,
        calculateFileSHA256 fs1 (Ptr path1) (Ptr out1) size1
        = (BRIDGE_SUCCESS, Ptr out1') ->
        calculateFileSHA256 fs2 (Ptr path2) (Ptr out2) size2
        = (BRIDGE_SUCCESS, Ptr out2') ->
        c_string out1' = c_string out2'
        /\ c_string out1' = digest_string (readable file1)
        /\ length (c_string out1') = 64%nat)
    /\ (path1 <> EmptyString -> 65 <= size1 -> healthy file1 ->
        fst (calculateFileSHA256 fs1 (Ptr path1) (Ptr out1) size1)
        = BRIDGE_SUCCESS)
    /\ (path2 <> EmptyString -> 65 <= size2 -> healthy file2 ->
        fst (calculateFileSHA256 fs2 (Ptr path2) (Ptr out2) size2)
        = BRIDGE_SUCCESS).
Proof.
  intros fs1 fs2 path1 path2 file1 file2 out1 out2 size1 size2
         Hcap1 Hcap2 Hopen1 Hopen2 Hsame.
  split; [| split].
  - intros out1' out2' Hcall1 Hcall2.
    destruct (calculateFileSHA256_digest _ _ _ _ _ Hcap1 Hcall1)
      as (f1 & _ & Ho1 & _ & _ & Hs1 & _).
    destruct (calculateFileSHA256_digest _ _ _ _ _ Hcap2 Hcall2)
      as (f2 & _ & Ho2 & _ & _ & Hs2 & _).
    rewrite Hopen1 in Ho1. injection Ho1 as <-.
    rewrite Hopen2 in Ho2. injection Ho2 as <-.
    rewrite Hs1, Hs2, Hsame. split; [reflexivity |]. split; [reflexivity |].
    apply digest_string_shape.
  - intros Hpath Hsize Hh.
    rewrite calculateFileSHA256_valid_args, Hopen1, decide_True by assumption.
    reflexivity.
  - intros Hpath Hsize Hh.
    rewrite calculateFileSHA256_valid_args, Hopen2, decide_True by assumption.
    reflexivity.
Qed.

Lemma identical_content_identical_digest_witness :
  c_string
    (list_ascii_of_string
       "ba7816bf8f01cfea414140de5dae2223b00361a396177a9cb410ff61f20015ad"
     ++ [NUL])
  = c_string
      (list_ascii_of_string
         "ba7816bf8f01cfea414140de5dae2223b00361a396177a9cb410ff61f20015ad"
       ++ NUL :: repeat "!"%char 15)
  /\ fst (calculateFileSHA256 sample_fs (Ptr "/abc"%string) (Ptr buffer65) 65)
     = BRIDGE_SUCCESS
  /\ fst (calculateFileSHA256 sample_fs (Ptr "/copy-of-abc"%string)
            (Ptr (repeat "!"%char 80)) 80)
     = BRIDGE_SUCCESS.
Proof.
  destruct (identical_content_identical_digest
              sample_fs sample_fs "/abc" "/copy-of-abc"
              (File 0 3 0 ["a"%byte; "b"%byte; "c"%byte] false)
              (File 0 3 0 ["a"%byte; "b"%byte; "c"%byte] false)
              buffer65 (repeat "!"%char 80) 65 80)
    as (Hsame & Hruns1 & Hruns2).
  - vm_compute. discriminate.
  - vm_compute. discriminate.
  - reflexivity.
  - reflexivity.
  - reflexivity.
  - split; [| split].
    + apply (Hsame
               (list_ascii_of_string
                  "ba7816bf8f01cfea414140de5dae2223b00361a396177a9cb410ff61f20015ad"
                ++ [NUL])
               (list_ascii_of_string
                  "ba7816bf8f01cfea414140de5dae2223b00361a396177a9cb410ff61f20015ad"
                ++ NUL :: repeat "!"%char 15));
        vm_compute; reflexivity.
    + apply Hruns1; [discriminate | lia | unfold healthy; cbn; lia].
    + apply Hruns2; [discriminate | lia | unfold healthy; cbn; lia].
Defined.

(** C9, as amended. Called with a path that is not empty, a buffer and a
    stated capacity of at least 65, the hash operation returns
    [BRIDGE_ERROR_FILE_ACCESS] (-5) and leaves the buffer as it was when
    the path cannot be opened, and also when the stream opens but a seek,
    the position query or a read fails.  Whatever the arguments, a call that
    does not return [BRIDGE_SUCCESS] leaves the buffer as it was. *)
Theorem unopenable_path_is_file_access :
  (forall (fs : FileSystem) (path : string) (out : list ascii) (size : Z),
      path <> EmptyString -> 65 <= size ->
      (fopen_rb fs path = NULL ->
       calculateFileSHA256 fs (Ptr path) (Ptr out) size
       = (BRIDGE_ERROR_FILE_ACCESS, Ptr out))
      /\ (forall file : FILE,
            fopen_rb fs path = Ptr file -> ~ healthy file ->
            calculateFileSHA256 fs (Ptr path) (Ptr out) size
            = (BRIDGE_ERROR_FILE_ACCESS, Ptr out)))
  /\ (forall (fs : FileSystem) (filePath : pointer string)
             (hashString : pointer (list ascii)) (hashStringSize : Z),
        fst (calculateFileSHA256 fs filePath hashString hashStringSize)
        <> BRIDGE_SUCCESS ->
        snd (calculateFileSHA256 fs filePath hashString hashStringSize)
        = hashString).
Proof.
  split.
  - intros fs path out size Hpath Hsize.
    rewrite calculateFileSHA256_valid_args by assumption. split.
    + intros ->. reflexivity.
    + intros file -> Hbad. rewrite decide_False by exact Hbad. reflexivity.
  - apply calculateFileSHA256_failure_writes_nothing.
Qed.

Lemma unopenable_path_is_file_access_witness :
  calculateFileSHA256 sample_fs (Ptr "/nonexistent"%string) (Ptr buffer65) 65
  = (BRIDGE_ERROR_FILE_ACCESS, Ptr buffer65)
  /\ calculateFileSHA256 sample_fs (Ptr "/dev/stdin"%string) (Ptr buffer65) 65
     = (BRIDGE_ERROR_FILE_ACCESS, Ptr buffer65)
  /\ snd (calculateFileSHA256 sample_fs (Ptr "/nonexistent"%string) NULL 65)
     = NULL.
Proof.
  destruct unopenable_path_is_file_access as [Hopen Hquiet].
  split; [| split].
  - apply (Hopen sample_fs "/nonexistent"%string buffer65 65).
    + discriminate.
    + lia.
    + reflexivity.
  - apply (proj2 (Hopen sample_fs "/dev/stdin"%string buffer65 65
                    ltac:(discriminate) ltac:(lia))
             (File (-1) (-1) (-1) [] false)).
    + reflexivity.
    + unfold healthy. cbn. lia.
  - apply (Hquiet sample_fs (Ptr "/nonexistent"%string) NULL 65).
    vm_compute. discriminate.
Defined.

(** C9 as stated fails: the empty path names no file, and the call answers
    [BRIDGE_ERROR_INVALID_PARAMETER] (-2) for it, as it does for a path that
    cannot be opened when the stated capacity is below 65; without a buffer
    it answers [BRIDGE_ERROR_NULL_POINTER] (-1). *)
Lemma empty_path_is_invalid_parameter :
  fopen_rb sample_fs EmptyString = NULL
  /\ calculateFileSHA256 sample_fs (Ptr EmptyString) (Ptr buffer65) 65
     = (BRIDGE_ERROR_INVALID_PARAMETER, Ptr buffer65)
  /\ fopen_rb sample_fs "/nonexistent" = NULL
  /\ calculateFileSHA256 sample_fs (Ptr "/nonexistent"%string) (Ptr buffer65) 64
     = (BRIDGE_ERROR_INVALID_PARAMETER, Ptr buffer65)
  /\ calculateFileSHA256 sample_fs (Ptr "/nonexistent"%string) NULL 65
     = (BRIDGE_ERROR_NULL_POINTER, NULL)
  /\ BRIDGE_ERROR_INVALID_PARAMETER <> BRIDGE_ERROR_FILE_ACCESS
  /\ BRIDGE_ERROR_NULL_POINTER <> BRIDGE_ERROR_FILE_ACCESS.
Proof. repeat split; try reflexivity; discriminate. Qed.

(** * Further properties of the bridge *)

(** ** Enumeration: when it succeeds and what it hands over *)

Lemma int_of_size_t_le (n : Z) : 0 <= n -> int_of_size_t n <= n.
Proof.
  intros Hn. unfold int_of_size_t.
  pose proof (Z.mod_le (n + 2 ^ 31) (2 ^ 32)). lia.
Qed.

(** With every step before the loop succeeding, the call returns the
    number of kept entries and an array of [proc_count] slots that starts
    with their records. *)
Lemma getAllProcesses_available (os : Darwin) (old : pointer process_array) :
  census_available os ->
  exists array : process_array,
    getAllProcesses os (Ptr old)
    = (Z.of_nat (length (filter (kept os) (visited os))), Ptr (Ptr array))
    /\ Z.of_nat (length array)
       = int_of_size_t (Z.of_nat (length (snd (sysctl_procs os))))
    /\ take (length (filter (kept os) (visited os))) array
       = ((fun entry => Some (record_of os (p_pid entry)))
            <$> filter (kept os) (visited os)).
Proof.
  unfold census_available, getAllProcesses, visited.
  destruct (sysctl_size os) as [sized size].
  destruct (sysctl_procs os) as [fetched proc_list]. cbn [fst snd].
  intros (-> & -> & Hsize & -> & -> & Hcount & ->). cbn [Z.eqb negb].
  destruct (Z.eqb_spec size 0); [contradiction |].
  set (proc_count := int_of_size_t (Z.of_nat (length proc_list))) in *.
  destruct (Z.leb_spec proc_count 0); [lia |].
  pose proof (getAllProcesses_loop os (take (Z.to_nat proc_count) proc_list)
                (replicate (Z.to_nat proc_count) None) 0) as Hloop.
  rewrite length_replicate, length_take in Hloop.
  specialize (Hloop ltac:(lia)). cbn zeta in Hloop.
  destruct (for_each (take (Z.to_nat proc_count) proc_list)
              (getAllProcesses_body os)
              (replicate (Z.to_nat proc_count) None, 0%nat))
    as [array valid_count].
  cbn [fst snd] in Hloop. destruct Hloop as (Hn & Hlen & Ht).
  exists array. cbn [Nat.add] in Hn. subst valid_count.
  split; [reflexivity |]. split; [lia |]. exact Ht.
Qed.

Lemma getAllProcesses_success_needs (os : Darwin)
    (processes : pointer (pointer process_array)) :
  0 <= fst (getAllProcesses os processes) ->
  processes <> NULL /\ census_available os.
Proof.
  unfold getAllProcesses, census_available.
  destruct processes as [| old]; [error_status |].
  destruct (Z.eqb_spec (pthread_mutex_lock os) 0) as [Hlock | _];
    cbn [negb]; [| error_status].
  destruct (sysctl_size os) as [sized size].
  destruct (sysctl_procs os) as [fetched proc_list]. cbn [fst snd].
  destruct (Z.eqb_spec sized 0) as [Hsized | _]; cbn [negb]; [| error_status].
  destruct (Z.eqb_spec size 0) as [| Hsize]; [error_status |].
  destruct (malloc_proc_list os); cbn [negb]; [| error_status].
  destruct (Z.eqb_spec fetched 0) as [Hfetched | _]; cbn [negb]; [| error_status].
  destruct (Z.leb_spec (int_of_size_t (Z.of_nat (length proc_list))) 0)
    as [| Hcount]; [error_status |].
  destruct (malloc_processes os); cbn [negb]; [| error_status].
  intros _. split; [discriminate |]. repeat split; assumption.
Qed.

Lemma getAllProcesses_succeeds_iff_helper (os : Darwin)
    (processes : pointer (pointer process_array)) :
  processes <> NULL -> census_available os ->
  0 <= fst (getAllProcesses os processes).
Proof.
  intros Hptr Havailable. destruct processes as [| old]; [contradiction |].
  destruct (getAllProcesses_available os old Havailable) as (array & -> & _).
  cbn [fst]. lia.
Qed.

(** X1. A successful enumeration hands over, in the order of the process
    table, exactly one record for each visited entry with a positive pid
    whose name resolves, and returns their number. *)
Theorem getAllProcesses_records_in_table_order :
  forall (os : Darwin) (processes : pointer (pointer process_array)),
    0 <= fst (getAllProcesses os processes) ->
    surfaced (getAllProcesses os processes)
    = ((fun entry => Some (record_of os (p_pid entry)))
         <$> filter (kept os) (visited os))
    /\ fst (getAllProcesses os processes)
       = Z.of_nat (length (filter (kept os) (visited os))).
Proof.
  intros os processes Hok.
  destruct (getAllProcesses_surfaced os processes Hok) as [Hrecords Hcount].
  split; [exact Hrecords | exact Hcount].
Qed.

Lemma getAllProcesses_records_in_table_order_witness :
  surfaced (getAllProcesses sample_os (Ptr NULL))
  = ((fun entry => Some (record_of sample_os (p_pid entry)))
       <$> filter (kept sample_os) (visited sample_os))
  /\ fst (getAllProcesses sample_os (Ptr NULL))
     = Z.of_nat (length (filter (kept sample_os) (visited sample_os))).
Proof.
  apply (getAllProcesses_records_in_table_order sample_os (Ptr NULL)).
  vm_compute. discriminate.
Defined.

(** X2. The call succeeds exactly when it is given a place for the result
    and every step before the loop succeeds: the lock, both [sysctl] calls
    with a size that is not 0, both allocations, and a number of entries
    that is positive once cast to [int]. *)
Theorem getAllProcesses_succeeds_iff :
  forall (os : Darwin) (processes : pointer (pointer process_array)),
    0 <= fst (getAllProcesses os processes)
    <-> processes <> NULL /\ census_available os.
Proof.
  intros os processes. split; [apply getAllProcesses_success_needs |].
  intros [Hptr Havailable]. apply getAllProcesses_succeeds_iff_helper; assumption.
Qed.

Lemma getAllProcesses_succeeds_iff_witness :
  0 <= fst (getAllProcesses sample_os (Ptr NULL)).
Proof.
  apply (getAllProcesses_succeeds_iff sample_os (Ptr NULL)).
  split; [discriminate |].
  unfold census_available. cbn. repeat split; try reflexivity; discriminate.
Defined.

(** X3. On success the array handed over has [proc_count] slots, no more
    than the process table has entries, and the count returned is between
    0 and that number of slots: the records lie within the allocation. *)
Theorem getAllProcesses_within_allocation :
  forall (os : Darwin) (processes : pointer (pointer process_array)),
    0 <= fst (getAllProcesses os processes) ->
    exists array : process_array,
      snd (getAllProcesses os processes) = Ptr (Ptr array)
      /\ Z.of_nat (length array)
         = int_of_size_t (Z.of_nat (length (snd (sysctl_procs os))))
      /\ (length array <= length (snd (sysctl_procs os)))%nat
      /\ fst (getAllProcesses os processes) <= Z.of_nat (length array)
      /\ length (surfaced (getAllProcesses os processes))
         = Z.to_nat (fst (getAllProcesses os processes)).
Proof.
  intros os processes Hok.
  destruct (getAllProcesses_success_needs os processes Hok) as [Hptr Havailable].
  destruct processes as [| old]; [contradiction |].
  destruct (getAllProcesses_available os old Havailable)
    as (array & Hcall & Hlen & Htake).
  exists array. rewrite Hcall. cbn [fst snd surfaced].
  pose proof (int_of_size_t_le (Z.of_nat (length (snd (sysctl_procs os))))
                ltac:(lia)) as Hcast.
  pose proof (length_filter (kept os) (visited os)) as Hkept.
  assert (Hvisited : (length (visited os) <= length array)%nat).
  { unfold visited. rewrite length_take. lia. }
  split; [reflexivity |]. split; [exact Hlen |]. split; [lia |]. split; [lia |].
  rewrite Nat2Z.id, Htake, length_fmap. reflexivity.
Qed.

Lemma getAllProcesses_within_allocation_witness :
  exists array : process_array,
    snd (getAllProcesses sample_os (Ptr NULL)) = Ptr (Ptr array)
    /\ Z.of_nat (length array)
       = int_of_size_t (Z.of_nat (length (snd (sysctl_procs sample_os))))
    /\ (length array <= length (snd (sysctl_procs sample_os)))%nat
    /\ fst (getAllProcesses sample_os (Ptr NULL)) <= Z.of_nat (length array)
    /\ length (surfaced (getAllProcesses sample_os (Ptr NULL)))
       = Z.to_nat (fst (getAllProcesses sample_os (Ptr NULL))).
Proof.
  apply (getAllProcesses_within_allocation sample_os (Ptr NULL)).
  vm_compute. discriminate.
Defined.

Lemma getAllProcesses_failure_cases :
  forall (os : Darwin) (processes : pointer (pointer process_array)),
    fst (getAllProcesses os processes) < 0 ->
    BRIDGE_ERROR_SYSTEM_CALL <= fst (getAllProcesses os processes)
    /\ (snd (getAllProcesses os processes) = processes
        \/ (snd (getAllProcesses os processes) = Ptr NULL
            /\ fst (getAllProcesses os processes)
               = BRIDGE_ERROR_MEMORY_ALLOCATION)).
Proof.
  intros os processes. unfold getAllProcesses.
  destruct processes as [| old];
    [cbn [fst snd]; intros _; split; [error_status | auto] |].
  destruct (negb (pthread_mutex_lock os =? 0));
    [cbn [fst snd]; intros _; split; [reflexivity | auto] |].
  destruct (sysctl_size os) as [sized size].
  destruct (negb (sized =? 0));
    [cbn [fst snd]; intros _; split; [reflexivity | auto] |].
  destruct (size =? 0);
    [cbn [fst snd]; intros _; split; [error_status | auto] |].
  destruct (negb (malloc_proc_list os));
    [cbn [fst snd]; intros _; split; [error_status | auto] |].
  destruct (sysctl_procs os) as [fetched proc_list].
  destruct (negb (fetched =? 0));
    [cbn [fst snd]; intros _; split; [reflexivity | auto] |].
  destruct (int_of_size_t (Z.of_nat (length proc_list)) <=? 0);
    [cbn [fst snd]; intros _; split; [error_status | auto] |].
  destruct (negb (malloc_processes os));
    [cbn [fst snd]; intros _; split; [error_status | auto] |].
  destruct (for_each _ _ _) as [array valid_count]. cbn [fst]. lia.
Qed.

(** X4. A call that fails returns one of the statuses -1 to -4 and hands
    over no array: the caller's pointer is as it was, or [NULL] when the
    array itself could not be allocated (status -3). *)
Theorem getAllProcesses_failure_hands_over_nothing :
  forall (os : Darwin) (processes : pointer (pointer process_array)),
    fst (getAllProcesses os processes) < 0 ->
    BRIDGE_ERROR_SYSTEM_CALL <= fst (getAllProcesses os processes)
    /\ (snd (getAllProcesses os processes) = processes
        \/ (snd (getAllProcesses os processes) = Ptr NULL
            /\ fst (getAllProcesses os processes)
               = BRIDGE_ERROR_MEMORY_ALLOCATION)).
Proof.
  intros os processes Hfailed.
  destruct (getAllProcesses_failure_cases os processes Hfailed) as [Hlow Hptr].
  split; [exact Hlow | exact Hptr].
Qed.

Lemma getAllProcesses_failure_hands_over_nothing_witness :
  BRIDGE_ERROR_SYSTEM_CALL <= fst (getAllProcesses sample_os NULL)
  /\ (snd (getAllProcesses sample_os NULL) = NULL
      \/ (snd (getAllProcesses sample_os NULL) = Ptr NULL
          /\ fst (getAllProcesses sample_os NULL)
             = BRIDGE_ERROR_MEMORY_ALLOCATION)).
Proof.
  apply (getAllProcesses_failure_hands_over_nothing sample_os NULL).
  vm_compute. reflexivity.
Defined.

(** ** Enumeration: the records *)

Lemma NoDup_fmap_filter {A B : Type} (f : A -> B) (P : A -> Prop)
    `{!forall x, Decision (P x)} (l : list A) :
  NoDup (f <$> l) -> NoDup (f <$> filter P l).
Proof.
  induction l as [| a l IH]; [intros _; constructor |].
  rewrite fmap_cons, NoDup_cons. intros [Hnotin Hrest].
  rewrite filter_cons. destruct (decide (P a)); [| auto].
  rewrite fmap_cons, NoDup_cons. split; [| auto].
  intros Hin. apply Hnotin. apply list_elem_of_fmap in Hin.
  destruct Hin as (x & Hx & Hin). apply list_elem_of_filter in Hin.
  apply list_elem_of_fmap. exists x. tauto.
Qed.

(** X5. When the pids of the visited table entries are pairwise distinct,
    so are the pids of the records handed over: no process is listed
    twice. *)
Theorem getAllProcesses_unique_pids :
  forall (os : Darwin) (processes : pointer (pointer process_array)),
    0 <= fst (getAllProcesses os processes) ->
    NoDup (p_pid <$> visited os : list Z) ->
    NoDup ((fun slot : option SystemProcessInfo.t =>
              SystemProcessInfo.pid <$> slot)
             <$> surfaced (getAllProcesses os processes) : list (option Z)).
Proof.
  intros os processes Hok Hnodup.
  destruct (getAllProcesses_surfaced os processes Hok) as [-> _].
  rewrite <- list_fmap_compose.
  apply (NoDup_fmap_filter p_pid (kept os)) in Hnodup.
  apply (NoDup_fmap_2 Some) in Hnodup.
  rewrite <- list_fmap_compose in Hnodup. exact Hnodup.
Qed.

Lemma getAllProcesses_unique_pids_witness :
  NoDup ((fun slot : option SystemProcessInfo.t =>
            SystemProcessInfo.pid <$> slot)
           <$> surfaced (getAllProcesses sample_os (Ptr NULL)) : list (option Z)).
Proof.
  apply (getAllProcesses_unique_pids sample_os (Ptr NULL)).
  - vm_compute. discriminate.
  - apply (bool_decide_unpack _). vm_compute. exact I.
Defined.

Lemma substring_prefix (n : nat) (s : string) :
  String.prefix (substring 0 n s) s = true
  /\ (String.length (substring 0 n s) <= n)%nat
  /\ ((String.length s <= n)%nat -> substring 0 n s = s).
Proof.
  revert s. induction n as [| n IH]; intros s.
  - destruct s; cbn; repeat split; try lia.
  - destruct s as [| c s]; [cbn; repeat split; lia |].
    destruct (IH s) as (Hp & Hl & He). cbn [substring String.prefix String.length].
    destruct (Ascii.ascii_dec c c) as [_ | Hne]; [| contradiction].
    repeat split; [exact Hp | lia |].
    intros H. rewrite He by lia. reflexivity.
Qed.

(** X6. In every record of a successful enumeration, the name is the name
    libproc reports, cut to what fits the buffer (at most
    PROC_PIDPATHINFO_MAXSIZE - 1 characters, and the whole of it when it
    fits), and the path is the one libproc reports when it resolves and
    empty otherwise. *)
Theorem getAllProcesses_record_name_and_path :
  forall (os : Darwin) (processes : pointer (pointer process_array))
         (p : SystemProcessInfo.t),
    0 <= fst (getAllProcesses os processes) ->
    Some p ∈ surfaced (getAllProcesses os processes) ->
    let reported := pbi_name (snd (proc_pidinfo os (SystemProcessInfo.pid p))) in
    let capacity := Z.to_nat (PROC_PIDPATHINFO_MAXSIZE os - 1) in
    0 < fst (proc_pidinfo os (SystemProcessInfo.pid p))
    /\ String.prefix (SystemProcessInfo.name p) reported = true
    /\ (String.length (SystemProcessInfo.name p) <= capacity)%nat
    /\ ((String.length reported <= capacity)%nat ->
        SystemProcessInfo.name p = reported)
    /\ (resolves_path os (SystemProcessInfo.pid p) ->
        SystemProcessInfo.path p
        = snd (proc_pidpath os (SystemProcessInfo.pid p)
                 (PROC_PIDPATHINFO_MAXSIZE os)))
    /\ (~ resolves_path os (SystemProcessInfo.pid p) ->
        SystemProcessInfo.path p = EmptyString).
Proof.
  intros os processes p Hok Hin.
  destruct (surfaced_records os processes _ Hok Hin)
    as (entry & _ & [Hpid Hname] & [= ->]).
  cbn zeta. unfold record_of.
  cbn [SystemProcessInfo.pid SystemProcessInfo.name SystemProcessInfo.path].
  pose proof (proj1 (resolves_name_iff _ _) Hname) as (Hsize & _ & Hwritten).
  split; [exact Hwritten |].
  assert (Ename :
    pointee_or (snd (getProcessName os (p_pid entry) (Ptr EmptyString)
                       (PROC_PIDPATHINFO_MAXSIZE os))) EmptyString
    = strncpy (PROC_PIDPATHINFO_MAXSIZE os - 1)
        (pbi_name (snd (proc_pidinfo os (p_pid entry))))).
  { unfold getProcessName.
    destruct (Z.eqb_spec (PROC_PIDPATHINFO_MAXSIZE os) 0); [contradiction |].
    destruct (Z.leb_spec (p_pid entry) 0); [lia |].
    destruct (proc_pidinfo os (p_pid entry)) as [written info].
    cbn [fst snd] in *. destruct (Z.leb_spec written 0); [lia | reflexivity]. }
  rewrite Ename. unfold strncpy.
  destruct (substring_prefix (Z.to_nat (PROC_PIDPATHINFO_MAXSIZE os - 1))
              (pbi_name (snd (proc_pidinfo os (p_pid entry)))))
    as (Hp & Hl & He).
  split; [exact Hp |]. split; [exact Hl |]. split; [exact He |].
  split; intros Hpath.
  - unfold resolves_path, getProcessPath in *.
    destruct (PROC_PIDPATHINFO_MAXSIZE os =? 0); [error_status |].
    destruct (p_pid entry <=? 0); [error_status |].
    destruct (UINT32_MAX <? PROC_PIDPATHINFO_MAXSIZE os); [error_status |].
    destruct (proc_pidpath os (p_pid entry) (PROC_PIDPATHINFO_MAXSIZE os))
      as [written found].
    destruct (written <=? 0); [error_status | reflexivity].
  - rewrite unresolved_path_is_empty by exact Hpath. reflexivity.
Qed.

Lemma getAllProcesses_record_name_and_path_witness :
  String.prefix "proc" (pbi_name (snd (proc_pidinfo sample_os 7))) = true
  /\ SystemProcessInfo.path (SystemProcessInfo.Make 7 "proc" "/bin/proc" 1 1 2 1)
     = snd (proc_pidpath sample_os 7 (PROC_PIDPATHINFO_MAXSIZE sample_os)).
Proof.
  pose proof (getAllProcesses_record_name_and_path sample_os (Ptr NULL)
                (SystemProcessInfo.Make 7 "proc" "/bin/proc" 1 1 2 1)) as H.
  cbn zeta in H.
  destruct H as (_ & Hprefix & _ & _ & Hpath & _).
  - vm_compute. discriminate.
  - rewrite getAllProcesses_sample. cbn. apply list_elem_of_here.
  - split; [exact Hprefix | apply Hpath; vm_compute; reflexivity].
Defined.

(** X7. The window metrics are not critical to the enumeration: with the
    window server unavailable a call still succeeds when it otherwise
    would, and every record has windowCount, screenEvasionCount,
    elevatedLayerCount and suspiciousWindowCount all 0. *)
Theorem getAllProcesses_without_window_server :
  forall (os : Darwin) (processes : pointer (pointer process_array)),
    (forall option,
        CGWindowListCopyWindowInfo (window_server os) option = NULL) ->
    processes <> NULL -> census_available os ->
    0 <= fst (getAllProcesses os processes)
    /\ Forall
         (fun slot =>
            exists p : SystemProcessInfo.t,
              slot = Some p
              /\ SystemProcessInfo.windowCount p = 0
              /\ SystemProcessInfo.screenEvasionCount p = 0
              /\ SystemProcessInfo.elevatedLayerCount p = 0
              /\ SystemProcessInfo.suspiciousWindowCount p = 0)
         (surfaced (getAllProcesses os processes)).
Proof.
  intros os processes Hnull Hptr Havailable.
  assert (Hok : 0 <= fst (getAllProcesses os processes)).
  { apply getAllProcesses_succeeds_iff_helper; assumption. }
  split; [exact Hok |]. apply Forall_forall. intros slot Hin.
  destruct (surfaced_records os processes slot Hok Hin) as (entry & _ & _ & ->).
  exists (record_of os (p_pid entry)). split; [reflexivity |].
  unfold record_of.
  cbn [SystemProcessInfo.windowCount SystemProcessInfo.screenEvasionCount
       SystemProcessInfo.elevatedLayerCount
       SystemProcessInfo.suspiciousWindowCount].
  unfold getWindowCount, detectScreenEvasion, detectElevatedLayers.
  rewrite !Hnull. destruct (p_pid entry <=? 0); repeat split;
    destruct (decide _) as [[H | H] | _]; try reflexivity; lia.
Qed.

Lemma getAllProcesses_without_window_server_witness :
  0 <= fst (getAllProcesses headless_os (Ptr NULL))
  /\ Forall
       (fun slot =>
          exists p : SystemProcessInfo.t,
            slot = Some p
            /\ SystemProcessInfo.windowCount p = 0
            /\ SystemProcessInfo.screenEvasionCount p = 0
            /\ SystemProcessInfo.elevatedLayerCount p = 0
            /\ SystemProcessInfo.suspiciousWindowCount p = 0)
       (surfaced (getAllProcesses headless_os (Ptr NULL))).
Proof.
  apply (getAllProcesses_without_window_server headless_os (Ptr NULL)).
  - intros option. destruct option; reflexivity.
  - discriminate.
  - unfold census_available. cbn. repeat split; try reflexivity; discriminate.
Defined.

Lemma filter_nothing {A : Type} (P : A -> Prop) `{!forall x, Decision (P x)}
    (l : list A) :
  (forall x, x ∈ l -> ~ P x) -> filter P l = [].
Proof.
  induction l as [| a l IH]; intros Hnone; [reflexivity |].
  rewrite filter_cons, decide_False by (apply Hnone; apply list_elem_of_here).
  apply IH. intros x Hx. apply Hnone. apply list_elem_of_further. exact Hx.
Qed.

(** X8. A process table in which no visited entry is kept (only kernel
    slots, or no name resolves) gives a successful call with count 0 and no
    record, whereas a table without entries makes the call fail with
    [BRIDGE_ERROR_INVALID_PARAMETER] and leaves the caller's pointer. *)
Theorem getAllProcesses_empty_results :
  (forall (os : Darwin) (old : pointer process_array),
      census_available os ->
      (forall entry, entry ∈ visited os -> ~ kept os entry) ->
      fst (getAllProcesses os (Ptr old)) = 0
      /\ surfaced (getAllProcesses os (Ptr old)) = [])
  /\ (forall (os : Darwin) (old : pointer process_array),
        pthread_mutex_lock os = 0 ->
        fst (sysctl_size os) = 0 -> snd (sysctl_size os) <> 0 ->
        malloc_proc_list os = true ->
        sysctl_procs os = (0, []) ->
        getAllProcesses os (Ptr old)
        = (BRIDGE_ERROR_INVALID_PARAMETER, Ptr old)).
Proof.
  split.
  - intros os old Havailable Hnone.
    destruct (getAllProcesses_surfaced os (Ptr old)) as [Hs Hn].
    { apply getAllProcesses_succeeds_iff_helper; [discriminate | assumption]. }
    rewrite Hs, Hn, (filter_nothing _ _ Hnone). split; reflexivity.
  - intros os old Hlock Hsized Hsize Hmalloc Hprocs. unfold getAllProcesses.
    destruct (sysctl_size os) as [sized size]. cbn [fst snd] in *.
    rewrite Hlock, Hsized, Hmalloc, Hprocs. cbn [Z.eqb negb].
    destruct (Z.eqb_spec size 0); [contradiction | reflexivity].
Qed.

Lemma getAllProcesses_empty_results_witness :
  fst (getAllProcesses kernel_only_os (Ptr NULL)) = 0
  /\ surfaced (getAllProcesses kernel_only_os (Ptr NULL)) = [].
Proof.
  apply (proj1 getAllProcesses_empty_results kernel_only_os NULL).
  - unfold census_available. cbn. repeat split; try reflexivity; discriminate.
  - intros entry Hin [Hpid _]. revert Hin Hpid. vm_compute.
    intros Hin. apply list_elem_of_In in Hin. destruct Hin as [<- | []].
    discriminate.
Defined.

(** ** getProcessName and getProcessPath *)

(** X9. [getProcessName] succeeds exactly when it is given a buffer of a
    size other than 0, a positive pid, and libproc reports the process.
    It then leaves a prefix of the reported name of at most nameSize - 1
    characters; when it fails, the buffer is as it was. *)
Theorem getProcessName_outcome :
  forall (os : Darwin) (pid : Z) (name : pointer string) (nameSize : Z),
    (fst (getProcessName os pid name nameSize) = BRIDGE_SUCCESS
     <-> name <> NULL /\ nameSize <> 0 /\ 0 < pid
         /\ 0 < fst (proc_pidinfo os pid))
    /\ (fst (getProcessName os pid name nameSize) = BRIDGE_SUCCESS ->
        exists resolved : string,
          snd (getProcessName os pid name nameSize) = Ptr resolved
          /\ String.prefix resolved (pbi_name (snd (proc_pidinfo os pid))) = true
          /\ (String.length resolved <= Z.to_nat (nameSize - 1))%nat)
    /\ (fst (getProcessName os pid name nameSize) <> BRIDGE_SUCCESS ->
        snd (getProcessName os pid name nameSize) = name).
Proof.
  intros os pid name nameSize. unfold getProcessName.
  destruct name as [| buffer].
  { cbn [fst snd]. repeat split; try error_status; try tauto. }
  destruct (Z.eqb_spec nameSize 0).
  { cbn [fst snd]. repeat split; try error_status; try tauto. }
  destruct (Z.leb_spec pid 0).
  { cbn [fst snd]. repeat split; try error_status; try (intros; lia). }
  destruct (proc_pidinfo os pid) as [written proc_info]. cbn [fst snd].
  destruct (Z.leb_spec written 0); cbn [fst snd].
  - repeat split; try error_status; try (intros; lia).
  - split; [| split].
    + split; [intros _ | reflexivity]. repeat split; try assumption. discriminate.
    + intros _. exists (strncpy (nameSize - 1) (pbi_name proc_info)).
      destruct (substring_prefix (Z.to_nat (nameSize - 1)) (pbi_name proc_info))
        as (Hp & Hl & _).
      unfold strncpy. auto.
    + intros Hfailed. contradiction Hfailed. reflexivity.
Qed.

Lemma getProcessName_outcome_witness :
  fst (getProcessName sample_os 7 (Ptr "stale"%string) 3) = BRIDGE_SUCCESS
  /\ (exists resolved : string,
        snd (getProcessName sample_os 7 (Ptr "stale"%string) 3) = Ptr resolved
        /\ String.prefix resolved (pbi_name (snd (proc_pidinfo sample_os 7))) = true
        /\ (String.length resolved <= Z.to_nat (3 - 1))%nat)
  /\ snd (getProcessName sample_os 5 (Ptr "stale"%string) 3) = Ptr "stale"%string.
Proof.
  destruct (getProcessName_outcome sample_os 7 (Ptr "stale"%string) 3)
    as (Hiff & Hgood & _).
  destruct (getProcessName_outcome sample_os 5 (Ptr "stale"%string) 3)
    as (_ & _ & Hbad).
  assert (Hok : fst (getProcessName sample_os 7 (Ptr "stale"%string) 3)
                = BRIDGE_SUCCESS).
  { apply Hiff. repeat split; try discriminate; cbn; lia. }
  split; [exact Hok |]. split; [exact (Hgood Hok) |].
  apply Hbad. vm_compute. discriminate.
Defined.

(** X10. [getProcessPath] succeeds exactly when it is given a buffer of a
    size between 1 and UINT32_MAX, a positive pid, and libproc finds the
    path, which it then leaves in the buffer.  When libproc fails the
    buffer is left empty with [BRIDGE_ERROR_SYSTEM_CALL]; when an argument
    is refused the buffer is as it was. *)
Theorem getProcessPath_outcome :
  forall (os : Darwin) (pid : Z) (path : pointer string) (pathSize : Z),
    (fst (getProcessPath os pid path pathSize) = BRIDGE_SUCCESS
     <-> path <> NULL /\ pathSize <> 0 /\ 0 < pid /\ pathSize <= UINT32_MAX
         /\ 0 < fst (proc_pidpath os pid pathSize))
    /\ (fst (getProcessPath os pid path pathSize) = BRIDGE_SUCCESS ->
        snd (getProcessPath os pid path pathSize)
        = Ptr (snd (proc_pidpath os pid pathSize)))
    /\ (fst (getProcessPath os pid path pathSize) = BRIDGE_ERROR_SYSTEM_CALL ->
        snd (getProcessPath os pid path pathSize) = Ptr EmptyString)
    /\ (fst (getProcessPath os pid path pathSize) = BRIDGE_ERROR_NULL_POINTER
        \/ fst (getProcessPath os pid path pathSize)
           = BRIDGE_ERROR_INVALID_PARAMETER ->
        snd (getProcessPath os pid path pathSize) = path).
Proof.
  intros os pid path pathSize. unfold getProcessPath.
  destruct path as [| buffer].
  { cbn [fst snd]. repeat split; try error_status; try tauto. }
  destruct (Z.eqb_spec pathSize 0).
  { cbn [fst snd]. repeat split; try error_status; try tauto. }
  destruct (Z.leb_spec pid 0).
  { cbn [fst snd]. repeat split; try error_status; try (intros; lia). }
  destruct (Z.ltb_spec UINT32_MAX pathSize).
  { cbn [fst snd]. repeat split; try error_status; try (intros; lia). }
  destruct (proc_pidpath os pid pathSize) as [written found]. cbn [fst snd].
  destruct (Z.leb_spec written 0); cbn [fst snd].
  - repeat split; try error_status; try (intros; lia).
  - repeat split; try error_status; try assumption; try discriminate;
      try (intros [H | H]; error_status).
Qed.

Lemma getProcessPath_outcome_witness :
  fst (getProcessPath sample_os 7 (Ptr "stale"%string) 4096) = BRIDGE_SUCCESS
  /\ snd (getProcessPath sample_os 9 (Ptr "stale"%string) 4096) = Ptr EmptyString
  /\ snd (getProcessPath sample_os 7 (Ptr "stale"%string) (2 ^ 32))
     = Ptr "stale"%string.
Proof.
  destruct (getProcessPath_outcome sample_os 7 (Ptr "stale"%string) 4096)
    as (Hiff & _).
  destruct (getProcessPath_outcome sample_os 9 (Ptr "stale"%string) 4096)
    as (_ & _ & Hempty & _).
  destruct (getProcessPath_outcome sample_os 7 (Ptr "stale"%string) (2 ^ 32))
    as (_ & _ & _ & Hkept).
  split; [| split].
  - apply Hiff. repeat split; try discriminate; cbn; lia.
  - apply Hempty. reflexivity.
  - apply Hkept. right. reflexivity.
Defined.

(** ** calculateFileSHA256: arguments, buffer and read loop *)

(** X11. The hash operation succeeds exactly when it is given a path that
    is not empty, a buffer with a stated capacity of at least 65, and the
    file opens on a stream whose seeks, position query and reads all
    succeed. *)
Theorem calculateFileSHA256_succeeds_iff :
  forall (fs : FileSystem) (filePath : pointer string)
         (hashString : pointer (list ascii)) (hashStringSize : Z),
    fst (calculateFileSHA256 fs filePath hashString hashStringSize)
    = BRIDGE_SUCCESS
    <-> exists (path : string) (out : list ascii) (file : FILE),
          filePath = Ptr path /\ hashString = Ptr out
          /\ path <> EmptyString /\ 65 <= hashStringSize
          /\ fopen_rb fs path = Ptr file /\ healthy file.
Proof.
  intros fs filePath hashString size. split.
  - destruct filePath as [| path], hashString as [| out];
      try (cbn; error_status).
    destruct (Z.ltb_spec size 65) as [Hsmall | Hsize].
    { unfold calculateFileSHA256.
      destruct (Z.ltb_spec size 65); [error_status | lia]. }
    destruct path as [| ch path].
    { unfold calculateFileSHA256. destruct (size <? 65); cbn; error_status. }
    rewrite calculateFileSHA256_valid_args by (discriminate || lia).
    destruct (fopen_rb fs (String ch path)) as [| file] eqn:Hopen;
      [error_status |].
    destruct (decide (healthy file)) as [Hh | _]; [| error_status].
    intros _. exists (String ch path), out, file.
    repeat split; try assumption; try discriminate; apply Hh.
  - intros (path & out & file & -> & -> & Hpath & Hsize & Hopen & Hh).
    rewrite calculateFileSHA256_valid_args, Hopen, decide_True by assumption.
    reflexivity.
Qed.

Lemma calculateFileSHA256_succeeds_iff_witness :
  fst (calculateFileSHA256 sample_fs (Ptr "/abc"%string) (Ptr buffer65) 65)
  = BRIDGE_SUCCESS.
Proof.
  apply (calculateFileSHA256_succeeds_iff sample_fs).
  exists "/abc"%string, buffer65,
    (File 0 3 0 ["a"%byte; "b"%byte; "c"%byte] false).
  repeat split; try reflexivity; try discriminate; cbn; lia.
Defined.

(** The conversion loop, run to its end over a buffer with room, leaves the
    digits, the terminator of the last [snprintf], and the rest of the
    buffer as it was. *)
Lemma hex_loop_exact (hash : list Z) :
  forall (i : nat) (pre rest : list ascii),
    Forall (fun b => 0 <= b < 256) hash ->
    hash <> [] ->
    length pre = (i * 2)%nat ->
    (2 * length hash < length rest)%nat ->
    snd (hex_loop hash i (pre ++ rest))
    = pre ++ flat_map hex_pair hash
          ++ NUL :: drop (2 * length hash + 1) rest.
Proof.
  induction hash as [| b hash IH]; intros i pre rest Hrange Hne Hpre Hroom;
    [contradiction |].
  apply Forall_cons in Hrange. destruct Hrange as [Hb Hrange].
  destruct (snprintf_02x_spec b Hb) as [Hprint _].
  cbn [hex_loop]. rewrite Hprint. cbn [Z.eqb negb Pos.eqb].
  destruct rest as [| r0 [| r1 [| r2 rest]]]; cbn [length] in Hroom; try lia.
  rewrite <- Hpre, store_app.
  change (store 0 (hex_pair b ++ [NUL]) (r0 :: r1 :: r2 :: rest))
    with (hex_pair b ++ NUL :: rest).
  rewrite app_assoc.
  replace (2 * length (b :: hash) + 1)%nat with (S (S (S (2 * length hash))))
    by (cbn [length]; lia).
  cbn [drop flat_map].
  destruct hash as [| b' hash].
  - cbn [hex_loop snd flat_map length Nat.mul drop]. rewrite app_nil_r.
    rewrite <- !app_assoc. reflexivity.
  - rewrite (IH (S i) (pre ++ hex_pair b) (NUL :: rest) Hrange).
    + replace (2 * length (b' :: hash) + 1)%nat
        with (S (2 * length (b' :: hash))) by lia.
      cbn [drop]. rewrite <- !app_assoc. reflexivity.
    + discriminate.
    + rewrite length_app, Hpre. cbn. lia.
    + cbn [length] in *. lia.
Qed.

(** X12. A successful call overwrites the first 65 characters of the
    caller's buffer and nothing else: the buffer ends up as the 64 digits
    of the digest of the bytes of the file, the terminator, and from index
    65 on what it held before, with its length unchanged. *)
Theorem calculateFileSHA256_writes_65_characters :
  forall (fs : FileSystem) (path : string) (out out' : list ascii) (size : Z),
    size <= Z.of_nat (length out) ->
    calculateFileSHA256 fs (Ptr path) (Ptr out) size = (BRIDGE_SUCCESS, Ptr out') ->
    exists file : FILE,
      fopen_rb fs path = Ptr file
      /\ out' = digest_string (readable file) ++ NUL :: drop 65 out
      /\ length out' = length out.
Proof.
  intros fs path out out' size Hcap Hcall.
  destruct (calculateFileSHA256_success _ _ _ _ _ Hcall)
    as (Hsize & file & Hopen & _ & ->).
  exists file. split; [exact Hopen |].
  unfold digest_string, SHA256, store_digest.
  set (c := snd (CC_SHA256_Update (snd CC_SHA256_Init) (readable file))).
  pose proof (digest_length c) as Hlen.
  pose proof (digest_bytes_range c) as Hrange.
  set (hash := snd (CC_SHA256_Final c)) in *.
  assert (Hne : hash <> []) by (intros E; rewrite E in Hlen; discriminate).
  pose proof (hex_loop_exact hash 0 [] out Hrange Hne eq_refl) as Hrun.
  cbn [app] in Hrun. rewrite Hrun by lia.
  change (Z.to_nat (CC_SHA256_DIGEST_LENGTH * 2)) with 64%nat.
  rewrite Hlen. change (2 * 32 + 1)%nat with 65%nat.
  assert (Hdigits : length (flat_map hex_pair hash) = 64%nat)
    by (rewrite flat_map_hex_pair_length, Hlen; reflexivity).
  rewrite insert_app_r_alt by lia. rewrite Hdigits.
  change (64 - 64)%nat with 0%nat. cbn [insert list_insert].
  split; [reflexivity |].
  rewrite length_app, Hdigits. cbn [length]. rewrite length_drop. lia.
Qed.

Lemma calculateFileSHA256_writes_65_characters_witness :
  exists file : FILE,
    fopen_rb sample_fs "/abc" = Ptr file
    /\ (list_ascii_of_string
          "ba7816bf8f01cfea414140de5dae2223b00361a396177a9cb410ff61f20015ad"
        ++ NUL :: repeat "!"%char 15)
       = digest_string (readable file) ++ NUL :: drop 65 (repeat "!"%char 80)
    /\ length
         (list_ascii_of_string
            "ba7816bf8f01cfea414140de5dae2223b00361a396177a9cb410ff61f20015ad"
          ++ NUL :: repeat "!"%char 15)
       = length (repeat "!"%char 80).
Proof.
  apply (calculateFileSHA256_writes_65_characters
           sample_fs "/abc" (repeat "!"%char 80) _ 70).
  - vm_compute. discriminate.
  - vm_compute. reflexivity.
Defined.

Lemma read_loop_exact (nmemb : nat) (file : FILE) (c : CC_SHA256_CTX) :
  (0 < nmemb)%nat -> Z.of_nat nmemb <= UINT32_MAX ->
  read_loop nmemb file c
  = inr (File (fseek_end file) (ftell_end file) (fseek_set file) []
              (read_error file),
         snd (CC_SHA256_Update c (readable file))).
Proof.
  intros Hn Hmax. funelim (read_loop nmemb file c).
  - destruct (Z.ltb_spec UINT32_MAX (Z.of_nat (length (take nmemb (readable file)))))
      as [Hbig | _].
    { rewrite length_take in Hbig. lia. }
    rewrite CC_SHA256_Update_returns_1. cbn [Z.eqb].
    match goal with
    | IH : Z -> forall c' : CC_SHA256_CTX, _ |- _ =>
        rewrite (IH 1 (snd (CC_SHA256_Update sha256Context
                              (take nmemb (readable file)))) Hn Hmax)
    end.
    cbn [fseek_end ftell_end fseek_set readable read_error].
    rewrite CC_SHA256_Update_app, take_drop. reflexivity.
  - match goal with
    | Hzero : (0 <? _) = false |- _ =>
        pose proof (proj1 (Z.ltb_ge _ _) Hzero) as Hlen;
        rewrite length_take in Hlen
    end.
    assert (Hempty : readable file = []).
    { apply length_zero_iff_nil. lia. }
    rewrite Hempty, drop_nil, CC_SHA256_Update_nil. reflexivity.
Qed.

(** X13. The read loop does not depend on the size of its buffer: for
    every size from 1 to UINT32_MAX it never returns a status of its own,
    leaves the stream at its end, and leaves the context that one update
    with all the bytes of the stream gives. *)
Theorem read_loop_any_buffer_size :
  forall (nmemb nmemb' : nat) (file : FILE) (c : CC_SHA256_CTX),
    (0 < nmemb)%nat -> Z.of_nat nmemb <= UINT32_MAX ->
    (0 < nmemb')%nat -> Z.of_nat nmemb' <= UINT32_MAX ->
    read_loop nmemb file c = read_loop nmemb' file c
    /\ exists file' : FILE,
         read_loop nmemb file c
         = inr (file', snd (CC_SHA256_Update c (readable file)))
         /\ readable file' = []
         /\ ferror file' = read_error file.
Proof.
  intros nmemb nmemb' file c Hn Hmax Hn' Hmax'.
  rewrite !read_loop_exact by assumption. split; [reflexivity |].
  eexists. split; [reflexivity |]. split; reflexivity.
Qed.

Lemma read_loop_any_buffer_size_witness :
  read_loop 1 (File 0 3 0 ["a"%byte; "b"%byte; "c"%byte] false)
    (snd CC_SHA256_Init)
  = read_loop 2 (File 0 3 0 ["a"%byte; "b"%byte; "c"%byte] false)
      (snd CC_SHA256_Init).
Proof.
  apply (read_loop_any_buffer_size 1 2); try lia; vm_compute; discriminate.
Defined.

(** X14. Arguments are checked before the file system is consulted: with a
    null path or buffer the status is [BRIDGE_ERROR_NULL_POINTER], with a
    capacity below 65 or an empty path it is
    [BRIDGE_ERROR_INVALID_PARAMETER], in that order, whatever the file
    system holds, and the buffer is as it was. *)
Theorem calculateFileSHA256_checks_arguments_first :
  forall (fs fs' : FileSystem) (filePath : pointer string)
         (hashString : pointer (list ascii)) (hashStringSize : Z),
    filePath = NULL \/ hashString = NULL \/ hashStringSize < 65
    \/ filePath = Ptr EmptyString ->
    calculateFileSHA256 fs filePath hashString hashStringSize
    = calculateFileSHA256 fs' filePath hashString hashStringSize
    /\ snd (calculateFileSHA256 fs filePath hashString hashStringSize)
       = hashString
    /\ (filePath = NULL \/ hashString = NULL ->
        fst (calculateFileSHA256 fs filePath hashString hashStringSize)
        = BRIDGE_ERROR_NULL_POINTER)
    /\ (filePath <> NULL -> hashString <> NULL ->
        fst (calculateFileSHA256 fs filePath hashString hashStringSize)
        = BRIDGE_ERROR_INVALID_PARAMETER).
Proof.
  intros fs fs' filePath hashString size Hbad. unfold calculateFileSHA256.
  destruct filePath as [| path], hashString as [| out];
    try (cbn [fst snd]; repeat split; try reflexivity; intros; tauto).
  destruct (Z.ltb_spec size 65).
  { cbn [fst snd]. repeat split; try reflexivity.
    intros [Hnull | Hnull]; discriminate. }
  destruct Hbad as [Hb | [Hb | [Hb | Hb]]]; try discriminate; try lia.
  injection Hb as ->. cbn [String.length Nat.eqb fst snd].
  repeat split; try reflexivity. intros [Hnull | Hnull]; discriminate.
Qed.

Lemma calculateFileSHA256_checks_arguments_first_witness :
  fst (calculateFileSHA256 sample_fs NULL (Ptr buffer65) 10)
  = BRIDGE_ERROR_NULL_POINTER
  /\ fst (calculateFileSHA256 sample_fs (Ptr "/abc"%string) (Ptr buffer65) 64)
     = BRIDGE_ERROR_INVALID_PARAMETER.
Proof.
  split.
  - apply (calculateFileSHA256_checks_arguments_first sample_fs sample_fs
             NULL (Ptr buffer65) 10); left; reflexivity.
  - apply (calculateFileSHA256_checks_arguments_first sample_fs sample_fs
             (Ptr "/abc"%string) (Ptr buffer65) 64);
      [right; right; left; lia | discriminate | discriminate].
Defined.

(** ** The window metrics together *)

Lemma nonpositive_pid_metrics_are_0 (ws : WindowServer) (pid : Z) :
  pid <= 0 ->
  getWindowCount ws pid = 0
  /\ detectScreenEvasion ws pid = 0
  /\ detectElevatedLayers ws pid = 0.
Proof.
  intros Hpid. unfold getWindowCount, detectScreenEvasion, detectElevatedLayers.
  destruct (Z.leb_spec pid 0); [auto | lia].
Qed.


(** X15. For a positive pid and the on-screen list the window server
    answers with, [getWindowCount] is the number of windows of that list
    whose owner is the pid, at most the length of the list; the list of all
    windows plays no part in it. *)
Theorem getWindowCount_counts_on_screen_windows :
  forall (ws ws' : WindowServer) (pid : Z) (windows : list CFWindow),
    0 < pid ->
    CGWindowListCopyWindowInfo ws kCGWindowListOptionOnScreenOnly
    = Ptr windows ->
    getWindowCount ws pid = Z.of_nat (length (owned pid windows))
    /\ getWindowCount ws pid <= Z.of_nat (length windows)
    /\ (CGWindowListCopyWindowInfo ws' kCGWindowListOptionOnScreenOnly
        = Ptr windows ->
        getWindowCount ws' pid = getWindowCount ws pid).
Proof.
  intros ws ws' pid windows Hpid Hq.
  rewrite (getWindowCount_total ws pid windows Hpid Hq). unfold owned.
  pose proof (length_filter (owner_is pid) windows).
  split; [reflexivity |]. split; [lia |].
  intros Hq'. apply getWindowCount_total; assumption.
Qed.

Lemma getWindowCount_counts_on_screen_windows_witness :
  getWindowCount (window_server sample_os) 7
  = Z.of_nat
      (length (owned 7 [ window_at 7 0 0 800 600 (Some 1) (Some 0);
                         window_at 9 0 0 800 600 (Some 1) (Some 0) ])).
Proof.
  destruct (getWindowCount_counts_on_screen_windows
              (window_server sample_os) (window_server sample_os) 7
              [ window_at 7 0 0 800 600 (Some 1) (Some 0);
                window_at 9 0 0 800 600 (Some 1) (Some 0) ])
    as (Hcount & _ & _).
  - lia.
  - reflexivity.
  - exact Hcount.
Defined.

Lemma getWindowProperties_loop (pid : Z) (windows : list CFWindow)
    (properties : WindowProperties.t) :
  for_each windows (getWindowProperties_body pid) properties
  = WindowProperties.Make
      (WindowProperties.windowCount properties)
      (WindowProperties.sharingStateDisabled properties
       + Z.of_nat (length (filter (fun w => owner_is pid w /\ capture_excluded w)
                                  windows)))
      (WindowProperties.elevatedLayers properties)
      (WindowProperties.suspiciousPatterns properties).
Proof.
  revert properties. induction windows as [| w windows IH]; intros properties.
  - cbn. rewrite Z.add_0_r. destruct properties; reflexivity.
  - rewrite for_each_cons, IH, filter_cons. unfold getWindowProperties_body.
    destruct (decide (owner_is pid w /\ capture_excluded w)) as [[Ho Hc] | Hno].
    + apply owned_by_spec in Ho. rewrite Ho. unfold capture_excluded in Hc.
      rewrite Hc. cbn [Z.eqb WindowProperties.windowCount
                        WindowProperties.sharingStateDisabled
                        WindowProperties.elevatedLayers
                        WindowProperties.suspiciousPatterns length].
      f_equal. lia.
    + destruct (owned_by pid w) eqn:Eo.
      * apply owned_by_spec in Eo. unfold capture_excluded in Hno.
        destruct (kCGWindowSharingState w) as [sharing |]; [| reflexivity].
        destruct (Z.eqb_spec sharing 0) as [-> | _]; [tauto | reflexivity].
      * reflexivity.
Qed.

(** X16. For a positive pid, a structure to fill and a window server that
    answers, [getWindowProperties] succeeds and overwrites the four fields,
    whatever they held: windowCount, elevatedLayers and suspiciousPatterns
    with what [getWindowCount], [detectElevatedLayers] and
    [detectScreenEvasion] return, and sharingStateDisabled with the number
    of windows of the pid whose sharing state is 0. *)
Theorem getWindowProperties_fills_the_structure :
  forall (ws : WindowServer) (pid : Z) (windows : list CFWindow)
         (previous : WindowProperties.t),
    0 < pid ->
    CGWindowListCopyWindowInfo ws kCGWindowListOptionAll = Ptr windows ->
    getWindowProperties ws pid (Ptr previous)
    = (BRIDGE_SUCCESS,
       Ptr (WindowProperties.Make
              (getWindowCount ws pid)
              (Z.of_nat
                 (length (filter (fun w => owner_is pid w /\ capture_excluded w)
                                 windows)))
              (detectElevatedLayers ws pid)
              (detectScreenEvasion ws pid))).
Proof.
  intros ws pid windows previous Hpid Hq. unfold getWindowProperties.
  destruct (Z.leb_spec pid 0); [lia |].
  rewrite Hq, getWindowProperties_loop. reflexivity.
Qed.

Lemma getWindowProperties_fills_the_structure_witness :
  getWindowProperties (window_server sample_os) 7
    (Ptr (WindowProperties.Make 40 41 42 43))
  = (BRIDGE_SUCCESS, Ptr (WindowProperties.Make 1 1 1 2)).
Proof.
  rewrite (getWindowProperties_fills_the_structure
             (window_server sample_os) 7
             [ window_at 7 (-2000) (-2000) 100 100 (Some 0) (Some 3);
               window_at 7 0 0 800 600 (Some 1) (Some 0);
               window_at 9 0 0 800 600 (Some 1) (Some 0) ]
             (WindowProperties.Make 40 41 42 43)
             ltac:(lia) eq_refl).
  reflexivity.
Defined.

Lemma filter_owned_and (pid : Z) (P : CFWindow -> Prop)
    `{!forall w, Decision (P w)} (windows : list CFWindow) :
  filter (fun w => owner_is pid w /\ P w) windows = filter P (owned pid windows).
Proof.
  unfold owned. rewrite list_filter_filter. apply list_filter_iff. tauto.
Qed.




(** X18. The three metrics of a pid depend on the windows of that pid
    alone, and not on their order: two window servers whose lists hold the
    same windows of the pid, in any order and among any windows of other
    processes, give the same count, score and number of elevated
    layers. *)
Theorem window_metrics_ignore_order_and_other_processes :
  forall (ws ws' : WindowServer) (pid : Z)
         (all all' on_screen on_screen' : list CFWindow),
    CGWindowListCopyWindowInfo ws kCGWindowListOptionAll = Ptr all ->
    CGWindowListCopyWindowInfo ws' kCGWindowListOptionAll = Ptr all' ->
    CGWindowListCopyWindowInfo ws kCGWindowListOptionOnScreenOnly
    = Ptr on_screen ->
    CGWindowListCopyWindowInfo ws' kCGWindowListOptionOnScreenOnly
    = Ptr on_screen' ->
    owned pid all ≡ₚ owned pid all' ->
    owned pid on_screen ≡ₚ owned pid on_screen' ->
    getWindowCount ws pid = getWindowCount ws' pid
    /\ detectScreenEvasion ws pid = detectScreenEvasion ws' pid
    /\ detectElevatedLayers ws pid = detectElevatedLayers ws' pid.
Proof.
  intros ws ws' pid all all' on_screen on_screen' Ha Ha' Ho Ho' Hall Hscreen.
  destruct (Z.leb_spec pid 0) as [Hle | Hpid].
  { destruct (nonpositive_pid_metrics_are_0 ws pid Hle) as (-> & -> & ->).
    destruct (nonpositive_pid_metrics_are_0 ws' pid Hle) as (-> & -> & ->).
    auto. }
  rewrite (getWindowCount_total ws pid _ Hpid Ho).
  rewrite (getWindowCount_total ws' pid _ Hpid Ho').
  rewrite (detectScreenEvasion_total ws pid _ Hpid Ha).
  rewrite (detectScreenEvasion_total ws' pid _ Hpid Ha').
  rewrite (detectElevatedLayers_total ws pid _ Hpid Ha).
  rewrite (detectElevatedLayers_total ws' pid _ Hpid Ha').
  rewrite !(filter_owned_and pid (layer_exceeds 2)).
  fold (owned pid on_screen) (owned pid on_screen') (owned pid all)
       (owned pid all').
  rewrite Hscreen, Hall. auto.
Qed.

Lemma window_metrics_ignore_order_and_other_processes_witness :
  getWindowCount
    (window_server_of
       (Ptr [ window_at 7 0 0 800 600 (Some 0) (Some 3);
              window_at 7 0 0 0 0 (Some 1) (Some 0) ])
       (Ptr [ window_at 7 0 0 800 600 (Some 0) (Some 3) ])) 7
  = getWindowCount
      (window_server_of
         (Ptr [ window_at 8 0 0 0 0 (Some 0) (Some 9);
                window_at 7 0 0 0 0 (Some 1) (Some 0);
                window_at 7 0 0 800 600 (Some 0) (Some 3) ])
         (Ptr [ window_at 7 0 0 800 600 (Some 0) (Some 3);
                window_at 8 0 0 0 0 (Some 0) (Some 9) ])) 7
  /\ detectScreenEvasion
       (window_server_of
          (Ptr [ window_at 7 0 0 800 600 (Some 0) (Some 3);
                 window_at 7 0 0 0 0 (Some 1) (Some 0) ])
          (Ptr [ window_at 7 0 0 800 600 (Some 0) (Some 3) ])) 7
     = detectScreenEvasion
         (window_server_of
            (Ptr [ window_at 8 0 0 0 0 (Some 0) (Some 9);
                   window_at 7 0 0 0 0 (Some 1) (Some 0);
                   window_at 7 0 0 800 600 (Some 0) (Some 3) ])
            (Ptr [ window_at 7 0 0 800 600 (Some 0) (Some 3);
                   window_at 8 0 0 0 0 (Some 0) (Some 9) ])) 7
  /\ detectElevatedLayers
       (window_server_of
          (Ptr [ window_at 7 0 0 800 600 (Some 0) (Some 3);
                 window_at 7 0 0 0 0 (Some 1) (Some 0) ])
          (Ptr [ window_at 7 0 0 800 600 (Some 0) (Some 3) ])) 7
     = detectElevatedLayers
         (window_server_of
            (Ptr [ window_at 8 0 0 0 0 (Some 0) (Some 9);
                   window_at 7 0 0 0 0 (Some 1) (Some 0);
                   window_at 7 0 0 800 600 (Some 0) (Some 3) ])
            (Ptr [ window_at 7 0 0 800 600 (Some 0) (Some 3);
                   window_at 8 0 0 0 0 (Some 0) (Some 9) ])) 7.
Proof.
  eapply window_metrics_ignore_order_and_other_processes;
    try reflexivity.
  apply Permutation_swap.
Defined.

(** ** The helpers of the bridging header *)

Lemma bridge_status_cases (code : Z) :
  bridge_status code ->
  code = 0 \/ code = -1 \/ code = -2 \/ code = -3 \/ code = -4 \/ code = -5.
Proof.
  unfold bridge_status, BRIDGE_ERROR_FILE_ACCESS, BRIDGE_SUCCESS. lia.
Qed.

Lemma not_a_status_is_unknown (code : Z) :
  ~ bridge_status code ->
  getBridgeErrorDescription code = "Unknown error"%string.
Proof.
  unfold bridge_status, getBridgeErrorDescription, BRIDGE_SUCCESS,
    BRIDGE_ERROR_NULL_POINTER, BRIDGE_ERROR_INVALID_PARAMETER,
    BRIDGE_ERROR_MEMORY_ALLOCATION, BRIDGE_ERROR_SYSTEM_CALL,
    BRIDGE_ERROR_FILE_ACCESS.
  intros Hnot.
  repeat (match goal with
          | |- context [?x =? ?y] => destruct (Z.eqb_spec x y); [lia |]
          end).
  reflexivity.
Qed.

(** X19. [isBridgeSuccess] and [isBridgeError] answer 0 or 1 and never both
    1; both answer 0 exactly for a positive result, such as the count that
    [getAllProcesses] returns. *)
Theorem isBridgeSuccess_isBridgeError_partition :
  forall result : Z,
    (isBridgeSuccess result = 1 <-> result = 0)
    /\ (isBridgeError result = 1 <-> result < 0)
    /\ ~ (isBridgeSuccess result = 1 /\ isBridgeError result = 1)
    /\ (isBridgeSuccess result = 0 /\ isBridgeError result = 0 <-> 0 < result).
Proof.
  intros result. unfold isBridgeSuccess, isBridgeError, BRIDGE_SUCCESS.
  destruct (Z.eqb_spec result 0), (Z.ltb_spec result 0);
    repeat split; intros; try lia; try tauto; try discriminate.
Qed.

(** X20. [getBridgeErrorDescription] gives six pairwise different
    descriptions to the six statuses 0 to -5, and "Unknown error" to
    every other value and to no status. *)
Theorem getBridgeErrorDescription_describes_statuses :
  forall code code' : Z,
    (getBridgeErrorDescription code = "Unknown error"%string
     <-> ~ bridge_status code)
    /\ (bridge_status code -> bridge_status code' ->
        getBridgeErrorDescription code = getBridgeErrorDescription code' ->
        code = code').
Proof.
  intros code code'. split.
  - split; [| apply not_a_status_is_unknown].
    intros Hunknown Hstatus.
    destruct (bridge_status_cases code Hstatus)
      as [-> | [-> | [-> | [-> | [-> | ->]]]]]; discriminate.
  - intros Hs Hs'.
    destruct (bridge_status_cases code Hs)
      as [-> | [-> | [-> | [-> | [-> | ->]]]]];
      destruct (bridge_status_cases code' Hs')
        as [-> | [-> | [-> | [-> | [-> | ->]]]]];
      intros H; try reflexivity; discriminate.
Qed.

Lemma getBridgeErrorDescription_describes_statuses_witness :
  getBridgeErrorDescription 7 = "Unknown error"%string.
Proof.
  apply (getBridgeErrorDescription_describes_statuses 7 0).
  unfold bridge_status, BRIDGE_SUCCESS. lia.
Defined.

Lemma calculateFileSHA256_status (fs : FileSystem) (filePath : pointer string)
    (hashString : pointer (list ascii)) (size : Z) :
  bridge_status (fst (calculateFileSHA256 fs filePath hashString size)).
Proof.
  unfold bridge_status.
  destruct filePath as [| path], hashString as [| out]; try (cbn; error_status).
  destruct (Z.ltb_spec size 65) as [Hsmall | Hsize].
  { unfold calculateFileSHA256.
    destruct (Z.ltb_spec size 65); [error_status | lia]. }
  destruct path as [| ch path].
  { unfold calculateFileSHA256. destruct (size <? 65); cbn; error_status. }
  rewrite calculateFileSHA256_valid_args by (discriminate || lia).
  destruct (fopen_rb fs (String ch path)) as [| file]; [error_status |].
  destruct (decide (healthy file)); error_status.
Qed.

(** X21. Every status that [calculateFileSHA256], [getProcessName],
    [getProcessPath] and [getWindowProperties] return is one of the six
    statuses, so it has a description of its own and exactly one of
    [isBridgeSuccess] and [isBridgeError] answers 1 for it.  A failure of
    [getAllProcesses] is such a status too, but a positive count is none:
    neither helper answers 1 for it and its description is
    "Unknown error". *)
Theorem bridge_results_and_helpers :
  (forall (fs : FileSystem) (filePath : pointer string)
          (hashString : pointer (list ascii)) (size : Z),
      bridge_status (fst (calculateFileSHA256 fs filePath hashString size)))
  /\ (forall (os : Darwin) (pid : Z) (buffer : pointer string) (size : Z),
        bridge_status (fst (getProcessName os pid buffer size))
        /\ bridge_status (fst (getProcessPath os pid buffer size)))
  /\ (forall (ws : WindowServer) (pid : Z)
             (properties : pointer WindowProperties.t),
        bridge_status (fst (getWindowProperties ws pid properties)))
  /\ (forall status : Z,
        bridge_status status ->
        getBridgeErrorDescription status <> "Unknown error"%string
        /\ isBridgeSuccess status + isBridgeError status = 1)
  /\ (forall (os : Darwin) (processes : pointer (pointer process_array)),
        let count := fst (getAllProcesses os processes) in
        (count < 0 -> bridge_status count)
        /\ (0 < count ->
            isBridgeSuccess count = 0 /\ isBridgeError count = 0
            /\ getBridgeErrorDescription count = "Unknown error"%string)).
Proof.
  split; [exact calculateFileSHA256_status |]. split; [| split; [| split]].
  - intros os pid buffer size. unfold bridge_status, getProcessName, getProcessPath.
    destruct buffer; [split; error_status |].
    destruct (size =? 0); [split; error_status |].
    destruct (pid <=? 0); [split; error_status |].
    destruct (proc_pidinfo os pid) as [w1 info].
    destruct (UINT32_MAX <? size);
      destruct (proc_pidpath os pid size) as [w2 found];
      destruct (w1 <=? 0), (w2 <=? 0); split; error_status.
  - intros ws pid properties. unfold bridge_status, getWindowProperties.
    destruct properties; [error_status |].
    destruct (pid <=? 0); [error_status |].
    destruct (CGWindowListCopyWindowInfo ws kCGWindowListOptionAll);
      error_status.
  - intros status Hstatus.
    destruct (bridge_status_cases status Hstatus)
      as [-> | [-> | [-> | [-> | [-> | ->]]]]];
      split; try discriminate; reflexivity.
  - intros os processes count. split.
    + intros Hneg.
      destruct (getAllProcesses_failure_cases os processes Hneg) as [Hlow _].
      unfold bridge_status. fold count in Hlow. error_status.
    + intros Hpos. unfold isBridgeSuccess, isBridgeError, BRIDGE_SUCCESS.
      destruct (Z.eqb_spec count 0); [lia |].
      destruct (Z.ltb_spec count 0); [lia |].
      split; [reflexivity |]. split; [reflexivity |].
      apply not_a_status_is_unknown. unfold bridge_status, BRIDGE_SUCCESS. lia.
Qed.

Lemma bridge_results_and_helpers_witness :
  isBridgeSuccess (fst (getAllProcesses sample_os (Ptr NULL))) = 0
  /\ isBridgeError (fst (getAllProcesses sample_os (Ptr NULL))) = 0
  /\ getBridgeErrorDescription (fst (getAllProcesses sample_os (Ptr NULL)))
     = "Unknown error"%string.
Proof.
  destruct bridge_results_and_helpers as (_ & _ & _ & _ & Hcount).
  apply (Hcount sample_os (Ptr NULL)). vm_compute. reflexivity.
Defined.

(** ** The bridge's globals *)

Lemma run_call_keeps_invariant (bridge : Bridge) (call : bridge_call) :
  mutex_held bridge = false ->
  g_bridge_initialized bridge = 0 \/ g_bridge_initialized bridge = 1 ->
  mutex_held (run_call bridge call) = false
  /\ (g_bridge_initialized (run_call bridge call) = 0
      \/ g_bridge_initialized (run_call bridge call) = 1).
Proof.
  intros Hheld Hflag. destruct call as [os | os]; cbn [run_call].
  - unfold initializeProcessBridge.
    destruct (pthread_mutex_lock os =? 0); cbn [negb snd]; [| auto].
    cbn [mutex_held g_bridge_initialized mutex_destroyed].
    destruct (g_bridge_initialized bridge =? 0) eqn:E;
      cbn [mutex_held g_bridge_initialized]; [auto |].
    split; [reflexivity |]. destruct Hflag as [H0 | H1]; [| auto].
    rewrite H0 in E. discriminate.
  - unfold cleanupProcessBridge. cbn. auto.
Qed.

(** X22. Whatever sequence of [initializeProcessBridge] and
    [cleanupProcessBridge] calls a thread makes from the static state, and
    whatever the lock answers, it ends without holding the mutex and with
    [g_bridge_initialized] at 0 or 1.  A successful initialization leaves
    the flag at 1, one whose lock fails changes nothing and returns
    [BRIDGE_ERROR_SYSTEM_CALL], and a cleanup leaves the flag at 0 and the
    mutex destroyed even when its lock fails. *)
Theorem bridge_globals_invariant :
  forall (calls : list bridge_call) (os : Darwin),
    let bridge := run_calls calls static_bridge in
    mutex_held bridge = false
    /\ (g_bridge_initialized bridge = 0 \/ g_bridge_initialized bridge = 1)
    /\ (pthread_mutex_lock os = 0 ->
        fst (initializeProcessBridge os bridge) = BRIDGE_SUCCESS
        /\ g_bridge_initialized (snd (initializeProcessBridge os bridge)) = 1)
    /\ (pthread_mutex_lock os <> 0 ->
        initializeProcessBridge os bridge = (BRIDGE_ERROR_SYSTEM_CALL, bridge))
    /\ g_bridge_initialized (cleanupProcessBridge os bridge) = 0
    /\ mutex_destroyed (cleanupProcessBridge os bridge) = true.
Proof.
  intros calls os bridge.
  assert (Hinv : mutex_held bridge = false
                 /\ (g_bridge_initialized bridge = 0
                     \/ g_bridge_initialized bridge = 1)).
  { subst bridge. unfold run_calls.
    assert (Hstart : mutex_held static_bridge = false
                     /\ (g_bridge_initialized static_bridge = 0
                         \/ g_bridge_initialized static_bridge = 1))
      by (cbn; auto).
    revert Hstart. generalize static_bridge as start.
    induction calls as [| call calls IH]; intros start Hstart; [exact Hstart |].
    cbn [fold_left]. apply IH. apply run_call_keeps_invariant; tauto. }
  destruct Hinv as [Hheld Hflag].
  split; [exact Hheld |]. split; [exact Hflag |].
  unfold initializeProcessBridge, cleanupProcessBridge.
  split; [| split; [| split]].
  - intros ->. cbn [Z.eqb negb fst snd mutex_held g_bridge_initialized
                    mutex_destroyed].
    split; [reflexivity |].
    destruct (Z.eqb_spec (g_bridge_initialized bridge) 0);
      cbn [g_bridge_initialized]; [reflexivity | lia].
  - intros Hlock. destruct (Z.eqb_spec (pthread_mutex_lock os) 0);
      [contradiction | reflexivity].
  - reflexivity.
  - reflexivity.
Qed.

Lemma bridge_globals_invariant_witness :
  fst (initializeProcessBridge sample_os
         (run_calls [Initialize sample_os; Cleanup sample_os] static_bridge))
  = BRIDGE_SUCCESS
  /\ g_bridge_initialized
       (snd (initializeProcessBridge sample_os
               (run_calls [Initialize sample_os; Cleanup sample_os]
                  static_bridge))) = 1.
Proof.
  apply (bridge_globals_invariant
           [Initialize sample_os; Cleanup sample_os] sample_os).
  reflexivity.
Defined.
